(** * A blog application: slugs, visibility, likes, comments and listings

    Shallow embedding of [blog/models.py], [blog/views.py] and
    [blog/templatetags/blog_tags.py].  The relational store is a record of
    tables, each table a list of rows in insertion order; every view is a
    function from the store and the request to the new store, the feedback
    messages it queued and the response. *)

From Stdlib Require Import List String Ascii Arith Bool Lia.
From Stdlib Require Import Decimal DecimalNat DecimalString.
From Stdlib Require Import Sorted Permutation.
Import ListNotations.
Local Open Scope string_scope.
Local Open Scope list_scope.
Local Open Scope nat_scope.

Set Implicit Arguments.

(* ================================================================== *)
(** * Text primitives of the Python runtime and of Django *)

(** [f"{counter}"]: the decimal numeral of a natural number. *)
Definition str_of_nat (n : nat) : string :=
  NilEmpty.string_of_uint (Nat.to_uint n).

(** [str.lower()] on one ASCII character. *)
Definition lower_ascii (c : ascii) : ascii :=
  let n := nat_of_ascii c in
  if (65 <=? n) && (n <=? 90) then ascii_of_nat (n + 32) else c.

Fixpoint lower (s : string) : string :=
  match s with
  | EmptyString => EmptyString
  | String c r => String (lower_ascii c) (lower r)
  end.

(** The regular-expression classes [\w] and [\s] on ASCII text. *)
Definition is_word (c : ascii) : bool :=
  let n := nat_of_ascii c in
  ((48 <=? n) && (n <=? 57)) || ((65 <=? n) && (n <=? 90))
  || ((97 <=? n) && (n <=? 122)) || (n =? 95).

Definition is_space (c : ascii) : bool :=
  let n := nat_of_ascii c in
  ((9 <=? n) && (n <=? 13)) || ((28 <=? n) && (n <=? 32)).

Definition is_hyphen (c : ascii) : bool := nat_of_ascii c =? 45.

Fixpoint keep (f : ascii -> bool) (s : string) : string :=
  match s with
  | EmptyString => EmptyString
  | String c r => if f c then String c (keep f r) else keep f r
  end.

(** [re.sub(r"[-\s]+", "-", value)]: every maximal run of hyphens and white
    space becomes one hyphen.  [in_run] tells that the previous character
    belonged to a run already replaced. *)
Fixpoint collapse (in_run : bool) (s : string) : string :=
  match s with
  | EmptyString => EmptyString
  | String c r =>
      if is_hyphen c || is_space c
      then (if in_run then collapse true r else String "-" (collapse true r))
      else String c (collapse false r)
  end.

Fixpoint lstrip (f : ascii -> bool) (s : string) : string :=
  match s with
  | EmptyString => EmptyString
  | String c r => if f c then lstrip f r else s
  end.

Fixpoint rstrip (f : ascii -> bool) (s : string) : string :=
  match s with
  | EmptyString => EmptyString
  | String c r =>
      match rstrip f r with
      | EmptyString => if f c then EmptyString else String c EmptyString
      | r' => String c r'
      end
  end.

(** [django.utils.text.slugify] (library code, Django 3.2 and later) for
    titles written in ASCII:
    [value = re.sub(r"[^\w\s-]", "", value.lower())] and then
    [re.sub(r"[-\s]+", "-", value).strip("-_")].
    The NFKD normalisation in front of it is the identity on ASCII text.
    On other text this instance is not Django's function: it drops every
    byte above 127, where Django first decomposes a character and keeps
    the ASCII part (the "e" of an accented "e").  It is applied to ASCII
    titles only. *)
Definition django_slugify (value : string) : string :=
  let value := keep (fun c => nat_of_ascii c <? 128) value in
  let value :=
    keep (fun c => is_word c || is_space c || is_hyphen c) (lower value) in
  let strip_set := fun c => is_hyphen c || (nat_of_ascii c =? 95) in
  rstrip strip_set (lstrip strip_set (collapse false value)).

(** Substring test, Python's [needle in hay]. *)
Fixpoint contains (needle hay : string) : bool :=
  String.prefix needle hay
  || match hay with
     | EmptyString => false
     | String _ r => contains needle r
     end.

(** The ORM lookup [field__icontains=query]: SQL [LIKE '%query%'] with the
    wildcards of the query escaped.  The database decides what "the same
    letter" means; SQLite, the backend of a Django project that configures
    no other, ignores the case of the letters A-Z and of no other
    character. *)
Definition icontains (field query : string) : bool :=
  contains (lower query) (lower field).

(** Python truthiness of a [str]: [if s:] and [not s]. *)
Definition truthy (s : string) : bool :=
  match s with EmptyString => false | _ => true end.

(* ================================================================== *)
(** * Data model ([blog/models.py]) *)

(** [Post]; [pk] is [None] until the first [save()].  [author] holds the
    primary key of a [User]; the [featured_image] column plays no part in
    any view logic and is left out. *)
Record Post := mkPost {
  pk : option nat;
  title : string;
  slug : string;
  author : nat;
  content : string;
  status : string;
  created_at : nat;
  updated_at : nat
}.

Record Comment := mkComment {
  comment_pk : nat;
  comment_post : nat;
  comment_user : nat;
  body : string;
  comment_created_at : nat
}.

(** [Like]: one row per (post, user); [unique_together] is declared on the
    pair. *)
Record Like := mkLike {
  like_pk : nat;
  like_post_id : nat;
  like_user : nat
}.

(** [taggit.models.Tag] and the through table behind [Post.tags]. *)
Record Tag := mkTag {
  tag_pk : nat;
  tag_name : string;
  tag_slug : string
}.

Record TaggedItem := mkTaggedItem {
  item_tag : nat;
  item_object : nat
}.

Record DB := mkDB {
  posts : list Post;
  comments : list Comment;
  likes : list Like;
  tags : list Tag;
  tagged_items : list TaggedItem
}.

Definition empty_db : DB := mkDB [] [] [] [] [].

Definition set_posts (db : DB) (ps : list Post) : DB :=
  mkDB ps (comments db) (likes db) (tags db) (tagged_items db).
Definition set_comments (db : DB) (cs : list Comment) : DB :=
  mkDB (posts db) cs (likes db) (tags db) (tagged_items db).
Definition set_likes (db : DB) (ls : list Like) : DB :=
  mkDB (posts db) (comments db) ls (tags db) (tagged_items db).

Definition Post_eq_dec (p q : Post) : {p = q} + {p <> q}.
Proof.
  decide equality; try apply Nat.eq_dec; try apply string_dec.
  decide equality; apply Nat.eq_dec.
Defined.

Definition option_nat_eqb (a b : option nat) : bool :=
  match a, b with
  | Some x, Some y => x =? y
  | None, None => true
  | _, _ => false
  end.

(* ================================================================== *)
(** * The object-relational mapper *)

Inductive Exception :=
| MultipleObjectsReturned
| IntegrityError
| ValueError.

(** [QuerySet.get()]: the single row that matches, [DoesNotExist] when none
    does, [MultipleObjectsReturned] when several do. *)
Inductive GetResult (A : Type) :=
| Found (row : A)
| DoesNotExist
| Multiple.
Arguments DoesNotExist {A}.
Arguments Multiple {A}.

Definition get {A : Type} (f : A -> bool) (rows : list A) : GetResult A :=
  match filter f rows with
  | [] => DoesNotExist
  | [row] => Found row
  | _ => Multiple
  end.

(** A primary key for a new row: one more than the largest key in the
    table, hence a key no row of the table has.  The database draws its
    keys from a sequence that also skips the keys of deleted rows; the
    development relies on the freshness of the key among the rows present
    and on nothing else about its value. *)
Definition next_pk (used : list nat) : nat := S (fold_right Nat.max 0 used).

(** [order_by('-key')]: rows by descending key; rows with equal keys keep
    their relative order (a row goes in front of the first row whose key is
    not larger than its own). *)
Fixpoint insert_desc {A : Type} (key : A -> nat) (x : A) (l : list A)
  : list A :=
  match l with
  | [] => [x]
  | y :: r =>
      if key y <=? key x then x :: l else y :: insert_desc key x r
  end.

Fixpoint order_by_desc {A : Type} (key : A -> nat) (l : list A) : list A :=
  match l with
  | [] => []
  | x :: r => insert_desc key x (order_by_desc key r)
  end.

(** [Post.objects]: the default manager applies [Meta.ordering =
    ['-created_at']] to every query set that sets no ordering of its own. *)
Definition Post_objects (db : DB) (f : Post -> bool) : list Post :=
  order_by_desc created_at (filter f (posts db)).

Definition is_published (p : Post) : bool := String.eqb (status p) "published".


(** The primary keys in use in the post table. *)
Definition post_pks (db : DB) : list nat :=
  flat_map (fun p => match pk p with Some i => [i] | None => [] end)
           (posts db).

(** [Post.objects.filter(slug=s).exists()] *)
Definition slug_exists (db : DB) (s : string) : bool :=
  existsb (fun p => String.eqb (slug p) s) (posts db).

Inductive SaveResult :=
| Saved (self : Post) (db : DB)
| SaveRaised (e : Exception)
| SaveLoops.

(** [models.Model.save]: an insert when the instance has no row yet, an
    update of its row otherwise; the unique index on [slug] rejects a slug
    carried by another row.  [auto_now_add] stamps [created_at] on insert,
    [auto_now] stamps [updated_at] on every save. *)
Definition Model_save (db : DB) (now : nat) (self : Post) : SaveResult :=
  if existsb (fun r => String.eqb (slug r) (slug self)
                       && negb (option_nat_eqb (pk r) (pk self))) (posts db)
  then SaveRaised IntegrityError
  else
    let insert i :=
      let row := mkPost (Some i) (title self) (slug self) (author self)
                        (content self) (status self) now now in
      Saved row (set_posts db (posts db ++ [row])) in
    match pk self with
    | None => insert (next_pk (post_pks db))
    | Some i =>
        if existsb (fun r => option_nat_eqb (pk r) (Some i)) (posts db)
        then
          let row := mkPost (Some i) (title self) (slug self) (author self)
                            (content self) (status self) (created_at self) now in
          Saved row
                (set_posts db
                   (map (fun r => if option_nat_eqb (pk r) (Some i)
                                  then row else r) (posts db)))
        else insert i
    end.

(** [Model.delete] on a post: the row goes, and with it what refers to it
    ([on_delete=models.CASCADE] on [Comment.post] and [Like.post], and the
    tag associations). *)
Definition Post_delete (db : DB) (self : Post) : DB :=
  match pk self with
  | None => db
  | Some i =>
      mkDB (filter (fun r => negb (option_nat_eqb (pk r) (Some i))) (posts db))
           (filter (fun c => negb (comment_post c =? i)) (comments db))
           (filter (fun l => negb (like_post_id l =? i)) (likes db))
           (tags db)
           (filter (fun t => negb (item_object t =? i)) (tagged_items db))
  end.

(* ================================================================== *)
(** * Requests and responses *)

Inductive RequestUser :=
| AnonymousUser
| User (id : nat).

Definition is_authenticated (u : RequestUser) : bool :=
  match u with AnonymousUser => false | User _ => true end.

(** [post.author != request.user]; an [AnonymousUser] equals no [User]. *)
Definition author_is (p : Post) (u : RequestUser) : bool :=
  match u with AnonymousUser => false | User i => author p =? i end.

Record HttpRequest := mkRequest {
  user : RequestUser;
  method : string;
  GET : list (string * string);
  POST : list (string * string)
}.

(** [QueryDict.get(key)]: the last value given for the key, if any. *)
Definition QueryDict_get (key : string) (d : list (string * string))
  : option string :=
  fold_left (fun acc kv => if String.eqb (fst kv) key then Some (snd kv)
                           else acc) d None.

Inductive Level := Info | Success | Warning | Error.
Definition Message : Type := Level * string.

(** A URL by the name of its route and the arguments given to [reverse]. *)
Record Url := mkUrl { view_name : string; args : list string }.

(** [Post.get_absolute_url] *)
Definition get_absolute_url (p : Post) : Url := mkUrl "post_detail" [slug p].

Inductive Form :=
| UnboundForm
| BoundForm (data : list (string * string)).

Record DetailContext := mkDetail {
  ctx_post : Post;
  ctx_comments : list Comment;
  ctx_form : Form;
  ctx_liked : bool;
  ctx_like_count : nat
}.

Inductive HttpResponse :=
| Http404
| Redirect (to : Url)
| Render (template : string) (ctx : DetailContext)
| ServerError (e : Exception).

Definition Response : Type := DB * list Message * HttpResponse.

Inductive QueryResult (A : Type) :=
| Rows (rows : list A)
| QueryNotFound
| QueryRaised (e : Exception).
Arguments QueryNotFound {A}.
Arguments QueryRaised {A} e.

(** [Like.objects.filter(post=post, user=user)] as a row predicate. *)
Definition like_of (p : Post) (u : nat) (l : Like) : bool :=
  option_nat_eqb (pk p) (Some (like_post_id l)) && (like_user l =? u).

(** [post.comments]: the comments of a post, in [Comment.Meta.ordering]. *)
Definition post_comments (db : DB) (p : Post) : list Comment :=
  order_by_desc comment_created_at
    (filter (fun c => option_nat_eqb (pk p) (Some (comment_post c)))
            (comments db)).

(** [post.likes.count()] *)
Definition like_count (db : DB) (p : Post) : nat :=
  List.length (filter (fun l => option_nat_eqb (pk p) (Some (like_post_id l)))
                      (likes db)).

(* ================================================================== *)
(** * Model methods and views *)

Section Blog.

(** [django.utils.text.slugify] is library code whose output depends on the
    Django release; the development is parametric in it
    ([django_slugify] above is the instance used in the worked examples). *)
Variable slugify : string -> string.

(** [CommentForm] lives in [blog/forms.py]: from the submitted data, the
    cleaned comment body when the form is valid, nothing otherwise. *)
Variable CommentForm_clean : list (string * string) -> option string.

(** The [while] loop of [Post.save]: [counter] and [slug_candidate] are the
    loop variables; [fuel] bounds the number of iterations. *)
Fixpoint probe (db : DB) (base_slug : string) (counter : nat)
         (slug_candidate : string) (fuel : nat) : option string :=
  match fuel with
  | 0 => None
  | S fuel' =>
      if slug_exists db slug_candidate
      then
        let counter := counter + 1 in
        probe db base_slug counter
              (base_slug ++ "-" ++ str_of_nat counter)%string fuel'
      else Some slug_candidate
  end.

(** [Post.save] *)
Definition Post_save (db : DB) (now : nat) (self : Post) : SaveResult :=
  if negb (truthy (slug self))
  then
    let base_slug := slugify (title self) in
    match probe db base_slug 1 base_slug (S (List.length (posts db))) with
    | None => SaveLoops
    | Some slug_candidate =>
        Model_save db now
          (mkPost (pk self) (title self) slug_candidate (author self)
                  (content self) (status self) (created_at self)
                  (updated_at self))
    end
  else Model_save db now self.

(** A post submitted for creation: no row and no slug yet. *)
Definition new_post (title : string) (author : nat) (content status : string)
  : Post :=
  mkPost None title "" author content status 0 0.

(** [PostListView.get_queryset] *)
Definition PostListView_get_queryset (db : DB) (request : HttpRequest)
  : list Post :=
  let qs := is_published in
  let query := QueryDict_get "q" (GET request) in
  let qs :=
    match query with
    | Some query =>
        if truthy query
        then fun p => qs p && (icontains (title p) query
                               || icontains (content p) query)
        else qs
    | None => qs
    end in
  Post_objects db qs.

(** [TagListView.get_queryset]: the join of the posts with their tag
    associations yields a post once per matching association;
    [distinct()] removes the repetitions. *)
Definition TagListView_get_queryset (db : DB) (tag_slug_kw : string)
  : QueryResult Post :=
  match get (fun t => String.eqb (tag_slug t) tag_slug_kw) (tags db) with
  | DoesNotExist => QueryNotFound
  | Multiple => QueryRaised MultipleObjectsReturned
  | Found tag =>
      let joined :=
        flat_map
          (fun p =>
             map (fun _ => p)
                 (filter (fun ti => (item_tag ti =? tag_pk tag)
                                    && option_nat_eqb (pk p)
                                         (Some (item_object ti)))
                         (tagged_items db)))
          (filter is_published (posts db)) in
      Rows (order_by_desc created_at (nodup Post_eq_dec joined))
  end.

(** [post_detail] *)
Definition post_detail (db : DB) (now : nat) (request : HttpRequest)
           (slug_kw : string) : Response :=
  match get (fun p => String.eqb (slug p) slug_kw) (posts db) with
  | DoesNotExist => (db, [], Http404)
  | Multiple => (db, [], ServerError MultipleObjectsReturned)
  | Found post =>
      if negb (is_published post) && negb (author_is post (user request))
      then (db, [(Warning, "This post is not published.")],
            Redirect (mkUrl "post_list" []))
      else
        let liked :=
          match user request with
          | User u => existsb (like_of post u) (likes db)
          | AnonymousUser => false
          end in
        let render form :=
          (db, [],
           Render "blog/post_detail.html"
                  (mkDetail post (post_comments db post) form liked
                            (like_count db post))) in
        if String.eqb (method request) "POST"
        then
          match user request with
          | AnonymousUser =>
              (db, [(Error, "Login required to comment.")],
               Redirect (mkUrl "login" []))
          | User u =>
              match CommentForm_clean (POST request) with
              | Some cleaned_body =>
                  match pk post with
                  | None => (db, [], ServerError ValueError)
                  | Some post_id =>
                      let comment :=
                        mkComment (next_pk (map comment_pk (comments db)))
                                  post_id u cleaned_body now in
                      (set_comments db (comments db ++ [comment]),
                       [(Success, "Comment added.")],
                       Redirect (get_absolute_url post))
                  end
              | None => render (BoundForm (POST request))
              end
          end
        else render UnboundForm
  end.

(** [DashboardView.get_context_data], for the signed-in user the
    [LoginRequiredMixin] lets through: that user's posts, each with its
    number of likes. *)
Definition DashboardView_get_context_data (db : DB) (u : nat)
  : list (Post * nat) :=
  order_by_desc (fun r => created_at (fst r))
    (map (fun p => (p, like_count db p))
         (filter (fun p => author p =? u) (posts db))).

(** [like_post] *)
Definition like_post (db : DB) (request : HttpRequest) (slug_kw : string)
  : Response :=
  match get (fun p => String.eqb (slug p) slug_kw) (posts db) with
  | DoesNotExist => (db, [], Http404)
  | Multiple => (db, [], ServerError MultipleObjectsReturned)
  | Found post =>
      match user request with
      | AnonymousUser =>
          (db, [(Error, "Login required to like posts.")],
           Redirect (mkUrl "login" []))
      | User u =>
          (* Like.objects.get_or_create(post=post, user=request.user) *)
          match get (like_of post u) (likes db) with
          | Multiple => (db, [], ServerError MultipleObjectsReturned)
          | Found like =>
              (* created is False: like.delete() *)
              (set_likes db
                 (filter (fun l => negb (like_pk l =? like_pk like))
                         (likes db)),
               [(Info, "Like removed.")],
               Redirect (get_absolute_url post))
          | DoesNotExist =>
              match pk post with
              | None => (db, [], ServerError ValueError)
              | Some post_id =>
                  let like :=
                    mkLike (next_pk (map like_pk (likes db))) post_id u in
                  (set_likes db (likes db ++ [like]),
                   [(Success, "Post liked.")],
                   Redirect (get_absolute_url post))
              end
          end
      end
  end.

(** [recent_posts] of [blog_tags.py] *)
Definition recent_posts (db : DB) (limit : nat) : list Post :=
  firstn limit (order_by_desc created_at (filter is_published (posts db))).

(** One operation on the store: a request served by [like_post] or
    [post_detail], a post saved (created or edited), a post deleted. *)
Inductive step : DB -> DB -> Prop :=
| step_like_post : forall db request slug_kw,
    step db (fst (fst (like_post db request slug_kw)))
| step_post_detail : forall db now request slug_kw,
    step db (fst (fst (post_detail db now request slug_kw)))
| step_save : forall db now self self' db',
    Post_save db now self = Saved self' db' -> step db db'
| step_delete : forall db self,
    step db (Post_delete db self).

(** The stores the application can reach from the empty one. *)
Inductive reachable : DB -> Prop :=
| reach_empty : reachable empty_db
| reach_step : forall db db', reachable db -> step db db' -> reachable db'.

End Blog.

(* ================================================================== *)
(** * Observations and invariants *)

(** The [Like] rows of the pair (post [p], user [u]). *)
Definition like_rows (db : DB) (p u : nat) : list Like :=
  filter (fun l => (like_post_id l =? p) && (like_user l =? u)) (likes db).

(** At most one [Like] per (post, user). *)
Definition likes_unique (db : DB) : Prop :=
  forall p u, List.length (like_rows db p u) <= 1.

(** The like-state of (post, user): whether the user likes the post. *)
Definition liked (db : DB) (p : Post) (u : nat) : bool :=
  existsb (like_of p u) (likes db).

(** No two rows of the post table share a slug (the unique index). *)
Definition slugs_unique (db : DB) : Prop := NoDup (map slug (posts db)).

(** The [k]-th candidate of the slug probe: the base itself, then the base
    with the suffixes -2, -3, ... *)
Definition candidate (base_slug : string) (k : nat) : string :=
  match k with
  | 1 => base_slug
  | _ => (base_slug ++ "-" ++ str_of_nat k)%string
  end.

(** Newest first. *)
Definition newest_first {A : Type} (key : A -> nat) (l : list A) : Prop :=
  StronglySorted (fun a b => key b <= key a) l.

(* ================================================================== *)
(** * Sample data for the worked examples *)

Definition sample_published : Post :=
  mkPost (Some 1) "Hello World" "hello-world" 1 "First words" "published"
         10 10.

Definition sample_draft : Post :=
  mkPost (Some 2) "Notes" "notes" 1 "Unfinished" "draft" 20 20.

(** Two posts of user 1, one like of user 2 on the published post, one tag
    on the published post. *)
Definition sample_db : DB :=
  mkDB [sample_published; sample_draft] []
       [mkLike 1 1 2] [mkTag 1 "News" "news"] [mkTaggedItem 1 1].

(** A comment form that accepts any non-empty [body]. *)
Definition sample_form (data : list (string * string)) : option string :=
  match QueryDict_get "body" data with
  | Some b => if truthy b then Some b else None
  | None => None
  end.

Definition anonymous_post : HttpRequest :=
  mkRequest AnonymousUser "POST" [] [("body", "Nice post")].

Definition reader_get : HttpRequest := mkRequest (User 2) "GET" [] [].

Definition reader_like : HttpRequest := mkRequest (User 2) "POST" [] [].

(** User 3 has liked nothing yet. *)
Definition newcomer_like : HttpRequest := mkRequest (User 3) "POST" [] [].

(** The published post of the sample store, about to be saved under a new
    title. *)
Definition sample_retitled : Post :=
  mkPost (Some 1) "Hello Again" "hello-world" 1 "First words" "published"
         10 10.

(* ================================================================== *)
(** * Integrity of the store *)

(** The post table as the database keeps it: every row has a primary key,
    no two rows share one, no two rows share a slug ([unique=True]). *)
Definition posts_ok (db : DB) : Prop :=
  NoDup (map pk (posts db))
  /\ (forall p, In p (posts db) -> pk p <> None)
  /\ NoDup (map slug (posts db)).

(** Primary keys are unique in the like and comment tables as well. *)
Definition store_ok (db : DB) : Prop :=
  posts_ok db
  /\ NoDup (map like_pk (likes db))
  /\ NoDup (map comment_pk (comments db)).

(** The tag table as taggit keeps it: no two tags share a slug. *)
Definition tag_slugs_unique (db : DB) : Prop :=
  NoDup (map tag_slug (tags db)).

(** [post] carries the tag with primary key [t]. *)
Definition tagged (db : DB) (t : nat) (p : Post) : Prop :=
  exists ti, In ti (tagged_items db) /\ item_tag ti = t
             /\ pk p = Some (item_object ti).

(** A signed-in reader's request without form data. *)
Definition get_as (u : nat) : HttpRequest := mkRequest (User u) "GET" [] [].

(** A comment submission of a signed-in reader. *)
Definition comment_as (u : nat) (text : string) : HttpRequest :=
  mkRequest (User u) "POST" [] [("body", text)].

(* ================================================================== *)
(** * What "case-insensitive substring" means *)




(* ================================================================== *)
(** * Text and list facts *)

Lemma str_of_nat_inj (a b : nat) : str_of_nat a = str_of_nat b -> a = b.
Proof.
  unfold str_of_nat; intros E.
  apply Unsigned.to_uint_inj.
  assert (H : Some (Nat.to_uint a) = Some (Nat.to_uint b))
    by (rewrite <- !NilEmpty.usu; now rewrite E).
  now inversion H.
Qed.

Lemma append_cancel_l (a b c : string) :
  (a ++ b)%string = (a ++ c)%string -> b = c.
Proof.
  induction a as [|x a IH]; simpl; intros E; [assumption|].
  inversion E; auto.
Qed.

Lemma append_length (a b : string) :
  String.length (a ++ b) = String.length a + String.length b.
Proof. induction a; simpl; congruence. Qed.

Lemma candidate_succ (base_slug : string) (c : nat) :
  1 <= c ->
  (base_slug ++ "-" ++ str_of_nat (c + 1))%string = candidate base_slug (c + 1).
Proof.
  intros H. destruct c as [|c]; [lia|].
  replace (S c + 1) with (S (S c)) by lia. reflexivity.
Qed.

Lemma candidate_suffix (base_slug : string) (k : nat) :
  2 <= k -> candidate base_slug k = (base_slug ++ "-" ++ str_of_nat k)%string.
Proof. intros H. destruct k as [|[|k]]; [lia|lia|reflexivity]. Qed.

Lemma candidate_inj (base_slug : string) (j k : nat) :
  1 <= j -> 1 <= k -> candidate base_slug j = candidate base_slug k -> j = k.
Proof.
  intros Hj Hk E.
  destruct (Nat.eq_dec j 1) as [->|Nj]; destruct (Nat.eq_dec k 1) as [->|Nk];
    trivial.
  - rewrite (candidate_suffix base_slug (k := k)) in E by lia. simpl in E.
    apply (f_equal String.length) in E. rewrite append_length in E.
    simpl in E. lia.
  - rewrite (candidate_suffix base_slug (k := j)) in E by lia. simpl in E.
    apply (f_equal String.length) in E. rewrite append_length in E.
    simpl in E. lia.
  - rewrite !candidate_suffix in E by lia.
    apply append_cancel_l, append_cancel_l in E.
    now apply str_of_nat_inj.
Qed.

Lemma NoDup_map_inj_in {A B : Type} (f : A -> B) (l : list A) :
  (forall x y, In x l -> In y l -> f x = f y -> x = y) ->
  NoDup l -> NoDup (map f l).
Proof.
  induction l as [|a l IH]; simpl; intros Hinj Hnd; [constructor|].
  inversion Hnd as [|? ? Hnotin Hnd']; subst. constructor.
  - intros Hin. apply in_map_iff in Hin as (x & Hx & Hxin).
    assert (x = a) by (apply Hinj; auto). subst. contradiction.
  - apply IH; auto.
Qed.

Lemma slug_exists_In (db : DB) (s : string) :
  slug_exists db s = true <-> In s (map slug (posts db)).
Proof.
  unfold slug_exists. rewrite existsb_exists, in_map_iff. split.
  - intros (p & Hin & E). apply String.eqb_eq in E. eauto.
  - intros (p & E & Hin). exists p. split; [assumption|].
    now apply String.eqb_eq.
Qed.

(* ================================================================== *)
(** * The slug probe of [Post.save] *)

Lemma probe_some (db : DB) (base_slug : string) (fuel c : nat) (s : string) :
  1 <= c ->
  probe db base_slug c (candidate base_slug c) fuel = Some s ->
  exists k, c <= k /\ s = candidate base_slug k
            /\ slug_exists db s = false
            /\ forall j, c <= j < k ->
                         slug_exists db (candidate base_slug j) = true.
Proof.
  revert c. induction fuel as [|fuel IH]; cbn [probe]; intros c Hc E;
    [discriminate|].
  destruct (slug_exists db (candidate base_slug c)) eqn:Ex.
  - rewrite candidate_succ in E by assumption.
    apply IH in E as (k & Hk & Es & Hfree & Hbusy); [|lia].
    exists k. repeat split; try assumption; [lia|].
    intros j Hj. destruct (Nat.eq_dec j c) as [->|N]; [assumption|].
    apply Hbusy. lia.
  - inversion E; subst. exists c. repeat split; auto. intros j Hj. lia.
Qed.

Lemma probe_none (db : DB) (base_slug : string) (fuel c : nat) :
  1 <= c ->
  probe db base_slug c (candidate base_slug c) fuel = None ->
  forall j, c <= j < c + fuel -> slug_exists db (candidate base_slug j) = true.
Proof.
  revert c. induction fuel as [|fuel IH]; cbn [probe]; intros c Hc E j Hj;
    [lia|].
  destruct (slug_exists db (candidate base_slug c)) eqn:Ex; [|discriminate].
  rewrite candidate_succ in E by assumption.
  destruct (Nat.eq_dec j c) as [->|N]; [assumption|].
  apply (IH (c + 1)); [lia|assumption|lia].
Qed.

(** The loop of [Post.save] terminates: among the first [n + 1] candidates
    one is carried by none of the [n] rows. *)
Lemma probe_terminates (db : DB) (base_slug : string) :
  exists s,
    probe db base_slug 1 base_slug (S (List.length (posts db))) = Some s.
Proof.
  destruct (probe db base_slug 1 base_slug (S (List.length (posts db))))
    as [s|] eqn:E; [eauto|].
  exfalso.
  pose proof (@probe_none db base_slug (S (List.length (posts db))) 1
                          (le_n 1) E) as Hbusy.
  set (cands := map (candidate base_slug) (seq 1 (S (List.length (posts db))))).
  assert (Hnd : NoDup cands).
  { apply NoDup_map_inj_in; [|apply seq_NoDup].
    intros x y Hx Hy. apply in_seq in Hx, Hy.
    apply candidate_inj; lia. }
  assert (Hincl : incl cands (map slug (posts db))).
  { intros s Hs. apply in_map_iff in Hs as (j & <- & Hj).
    apply in_seq in Hj. apply slug_exists_In, Hbusy. lia. }
  pose proof (NoDup_incl_length Hnd Hincl) as Hlen.
  unfold cands in Hlen. rewrite !length_map, length_seq in Hlen. lia.
Qed.

Lemma Model_save_insert (db : DB) (now : nat) (self : Post) :
  pk self = None ->
  slug_exists db (slug self) = false ->
  let row := mkPost (Some (next_pk (post_pks db))) (title self) (slug self)
                    (author self) (content self) (status self) now now in
  Model_save db now self = Saved row (set_posts db (posts db ++ [row])).
Proof.
  intros Hpk Hfree row. unfold Model_save. rewrite Hpk.
  destruct (existsb _ (posts db)) eqn:E; [|reflexivity].
  apply existsb_exists in E as (r & Hin & Hr).
  apply andb_true_iff in Hr as [Hs _].
  assert (slug_exists db (slug self) = true); [|congruence].
  unfold slug_exists. apply existsb_exists. eauto.
Qed.

Lemma slug_exists_insert (db : DB) (row : Post) (s : string) :
  slug_exists (set_posts db (posts db ++ [row])) s
  = slug_exists db s || String.eqb (slug row) s.
Proof.
  unfold slug_exists, set_posts; simpl. rewrite existsb_app. simpl.
  now rewrite orb_false_r.
Qed.

(** Creation of a post: the probe stops at the first free candidate and the
    row is appended under that slug. *)
Lemma Post_save_new (slugify : string -> string) (db : DB) (now : nat)
      (t : string) (a : nat) (c st : string) :
  exists k,
    1 <= k
    /\ Post_save slugify db now (new_post t a c st)
       = (let row := mkPost (Some (next_pk (post_pks db))) t
                            (candidate (slugify t) k) a c st now now in
          Saved row (set_posts db (posts db ++ [row])))
    /\ slug_exists db (candidate (slugify t) k) = false
    /\ forall j, 1 <= j < k ->
                 slug_exists db (candidate (slugify t) j) = true.
Proof.
  destruct (probe_terminates db (slugify t)) as (s & Hs).
  destruct (@probe_some db (slugify t) _ 1 s (le_n 1) Hs)
    as (k & Hk & -> & Hfree & Hbusy).
  exists k. repeat split; try assumption.
  unfold Post_save, new_post; cbn [slug truthy negb title pk author content
                                   status created_at updated_at].
  rewrite Hs. now rewrite Model_save_insert.
Qed.

(* ================================================================== *)
(** * Slug assignment *)

(** C1.  Two posts created one after the other under the same title get
    different slugs.  Both saves succeed from any store; the first post gets
    the slugified title when no row carries it yet; the second gets the
    slugified title with a numeric suffix [k >= 2], the first of -2, -3, ...
    that no row carries.  From the empty store the title "My First Post!"
    gives "my-first-post" and then "my-first-post-2". *)
Theorem identical_titles_distinct_slugs :
  (forall (slugify : string -> string) (db : DB) (now1 now2 : nat)
          (t : string) (a1 a2 : nat) (c1 c2 st1 st2 : string),
      exists p1 db1 p2 db2 k,
        Post_save slugify db now1 (new_post t a1 c1 st1) = Saved p1 db1
        /\ Post_save slugify db1 now2 (new_post t a2 c2 st2) = Saved p2 db2
        /\ slug p1 <> slug p2
        /\ (slug_exists db (slugify t) = false -> slug p1 = slugify t)
        /\ 2 <= k
        /\ slug p2 = (slugify t ++ "-" ++ str_of_nat k)%string
        /\ slug_exists db1 (slug p2) = false
        /\ (forall j, 2 <= j < k ->
              slug_exists db1 (slugify t ++ "-" ++ str_of_nat j)%string
              = true))
  /\ (forall (now1 now2 a1 a2 : nat) (c1 c2 st1 st2 : string),
        exists p1 db1 p2 db2,
          Post_save django_slugify empty_db now1
                    (new_post "My First Post!" a1 c1 st1) = Saved p1 db1
          /\ Post_save django_slugify db1 now2
                       (new_post "My First Post!" a2 c2 st2) = Saved p2 db2
          /\ slug p1 = "my-first-post"
          /\ slug p2 = "my-first-post-2").
Proof.
  split.
  - intros slugify db now1 now2 t a1 a2 c1 c2 st1 st2.
    destruct (Post_save_new slugify db now1 t a1 c1 st1)
      as (k1 & Hk1 & E1 & Hfree1 & Hbusy1).
    cbv zeta in E1.
    set (p1 := mkPost (Some (next_pk (post_pks db))) t
                      (candidate (slugify t) k1) a1 c1 st1 now1 now1) in *.
    set (db1 := set_posts db (posts db ++ [p1])) in *.
    destruct (Post_save_new slugify db1 now2 t a2 c2 st2)
      as (k2 & Hk2 & E2 & Hfree2 & Hbusy2).
    cbv zeta in E2.
    assert (Hbase : slug_exists db1 (candidate (slugify t) 1) = true).
    { unfold db1. rewrite slug_exists_insert.
      destruct (Nat.eq_dec k1 1) as [->|N].
      - simpl. rewrite String.eqb_refl. apply orb_true_r.
      - rewrite Hbusy1 by lia. reflexivity. }
    assert (Hk2' : 2 <= k2).
    { destruct (Nat.eq_dec k2 1) as [->|N]; [congruence|lia]. }
    eexists p1, db1, _, _, k2.
    split; [exact E1|]. split; [exact E2|]. cbn [slug].
    repeat split.
    + intros E. rewrite <- E in Hfree2. unfold db1 in Hfree2.
      rewrite slug_exists_insert in Hfree2. simpl in Hfree2.
      rewrite String.eqb_refl, orb_true_r in Hfree2. discriminate.
    + intros Hfree. unfold p1; cbn [slug].
      destruct (Nat.eq_dec k1 1) as [->|N]; [reflexivity|].
      specialize (Hbusy1 1). simpl in Hbusy1. rewrite Hbusy1 in Hfree by lia.
      discriminate.
    + assumption.
    + now apply candidate_suffix.
    + assumption.
    + intros j Hj. rewrite <- candidate_suffix by lia. apply Hbusy2. lia.
  - intros. do 4 eexists. repeat split; reflexivity.
Qed.

(* ================================================================== *)
(** * Looking a row up by a unique column *)

Lemma filter_none {A : Type} (f : A -> bool) (l : list A) :
  (forall x, In x l -> f x = false) -> filter f l = [].
Proof.
  induction l as [|a l IH]; simpl; intros H; [reflexivity|].
  rewrite (H a) by auto. apply IH. auto.
Qed.

Lemma filter_unique_key {A : Type} (key : A -> string) (l : list A) (x : A) :
  NoDup (map key l) -> In x l ->
  filter (fun y => String.eqb (key y) (key x)) l = [x].
Proof.
  induction l as [|a l IH]; simpl; intros Hnd Hin; [contradiction|].
  inversion Hnd as [|? ? Hnotin Hnd']; subst.
  destruct Hin as [->|Hin].
  - rewrite String.eqb_refl. f_equal. apply filter_none.
    intros y Hy. apply String.eqb_neq. intros E. apply Hnotin.
    rewrite <- E. now apply in_map.
  - destruct (String.eqb_spec (key a) (key x)) as [E|_]; [|auto].
    exfalso. apply Hnotin. rewrite E. now apply in_map.
Qed.

Lemma get_by_slug (db : DB) (P : Post) :
  slugs_unique db -> In P (posts db) ->
  get (fun p => String.eqb (slug p) (slug P)) (posts db) = Found P.
Proof.
  intros Hu Hin. unfold get. now rewrite filter_unique_key.
Qed.

Lemma get_no_slug (db : DB) (s : string) :
  (forall p, In p (posts db) -> slug p <> s) ->
  get (fun p => String.eqb (slug p) s) (posts db) = DoesNotExist.
Proof.
  intros H. unfold get. rewrite filter_none; [reflexivity|].
  intros p Hp. now apply String.eqb_neq, H.
Qed.

Lemma author_is_true (p : Post) (u : RequestUser) :
  author_is p u = true <-> u = User (author p).
Proof.
  destruct u as [|i]; simpl; split; try discriminate.
  - intros E. apply Nat.eqb_eq in E. now subst.
  - intros E. inversion E. apply Nat.eqb_refl.
Qed.

(* ================================================================== *)
(** * Visibility of a post *)

(** C2.  The detail view of a draft turns every viewer but the author away
    with a redirect to the listing and the warning message (no error), and
    shows the draft to the author; a published post is never turned away and
    is shown to every viewer.  "Shown" is the rendered detail page of a
    request that is not a comment submission. *)
Theorem draft_visible_to_author_only
        (CommentForm_clean : list (string * string) -> option string)
        (db : DB) (now : nat) (request : HttpRequest) (P : Post) :
  slugs_unique db -> In P (posts db) ->
  let r := post_detail CommentForm_clean db now request (slug P) in
  let turned_away :=
    r = (db, [(Warning, "This post is not published.")],
         Redirect (mkUrl "post_list" [])) in
  let shown :=
    exists ctx, r = (db, [], Render "blog/post_detail.html" ctx)
                /\ ctx_post ctx = P in
  (status P = "draft" ->
     (turned_away <-> user request <> User (author P))
     /\ (method request <> "POST" ->
         (shown <-> user request = User (author P))))
  /\ (status P = "published" ->
        ~ turned_away /\ (method request <> "POST" -> shown)).
Proof.
  intros Hu Hin r turned_away shown.
  unfold turned_away, shown, r, post_detail.
  rewrite (@get_by_slug db P Hu Hin).
  split; intros Hst.
  - assert (Hpub : is_published P = false)
      by (unfold is_published; now rewrite Hst).
    rewrite Hpub. cbn [negb andb].
    destruct (author_is P (user request)) eqn:Ha; cbn [negb].
    + apply author_is_true in Ha. split.
      * split; [|congruence]. intros E.
        destruct (String.eqb (method request) "POST");
          [destruct (user request); [discriminate|]|discriminate].
        destruct (CommentForm_clean (POST request));
          [destruct (pk P)|]; discriminate.
      * intros Hm. apply String.eqb_neq in Hm. rewrite Hm.
        split; [auto|]. intros _. eexists. split; reflexivity.
    + assert (Hne : user request <> User (author P)).
      { intros E. apply author_is_true in E. congruence. }
      split.
      * split; auto.
      * intros _. split; [|contradiction].
        intros (ctx & E & _). discriminate.
  - assert (Hpub : is_published P = true)
      by (unfold is_published; now rewrite Hst).
    rewrite Hpub. cbn [negb andb]. split.
    + intros E.
      destruct (String.eqb (method request) "POST");
        [destruct (user request); [discriminate|]|discriminate].
      destruct (CommentForm_clean (POST request));
        [destruct (pk P)|]; discriminate.
    + intros Hm. apply String.eqb_neq in Hm. rewrite Hm.
      eexists. split; reflexivity.
Qed.

(* ================================================================== *)
(** * Missing posts and anonymous requests *)

(** C10.  A slug that no post carries gives "not found" in the detail view
    and in [like_post], whoever asks: [like_post] looks the post up before
    it looks at the user, so an anonymous request gets "not found" as
    well, not the redirect to the login page.  The store stays as it is. *)
Theorem unknown_slug_not_found
        (CommentForm_clean : list (string * string) -> option string)
        (db : DB) (now : nat) (request : HttpRequest) (S : string) :
  (forall p, In p (posts db) -> slug p <> S) ->
  post_detail CommentForm_clean db now request S = (db, [], Http404)
  /\ like_post db request S = (db, [], Http404).
Proof.
  intros H. unfold post_detail, like_post.
  rewrite (@get_no_slug db S H). split; reflexivity.
Qed.

(** C5, as the code has it.  An anonymous [like_post] on any post is
    answered by the redirect to the login page with the message "Login
    required to like posts."; an anonymous comment submission on a published
    post by the redirect to the login page with "Login required to comment.";
    an anonymous comment submission on a post that is not published is
    turned away by the visibility check first (redirect to the listing,
    "This post is not published.").  None of them changes the store. *)
Theorem anonymous_interaction_requires_login
        (CommentForm_clean : list (string * string) -> option string)
        (db : DB) (now : nat) (request : HttpRequest) (P : Post) :
  slugs_unique db -> In P (posts db) -> user request = AnonymousUser ->
  like_post db request (slug P)
  = (db, [(Error, "Login required to like posts.")],
     Redirect (mkUrl "login" []))
  /\ (method request = "POST" ->
      (status P = "published" ->
       post_detail CommentForm_clean db now request (slug P)
       = (db, [(Error, "Login required to comment.")],
          Redirect (mkUrl "login" [])))
      /\ (status P <> "published" ->
          post_detail CommentForm_clean db now request (slug P)
          = (db, [(Warning, "This post is not published.")],
             Redirect (mkUrl "post_list" []))))
  /\ fst (fst (post_detail CommentForm_clean db now request (slug P))) = db.
Proof.
  intros Hu Hin Hanon. unfold like_post, post_detail.
  rewrite (@get_by_slug db P Hu Hin), Hanon. cbn [author_is negb andb].
  split; [reflexivity|]. split.
  - intros ->. cbn [String.eqb]. split; intros Hst.
    + unfold is_published. rewrite Hst. reflexivity.
    + apply String.eqb_neq in Hst. unfold is_published. rewrite Hst.
      reflexivity.
  - destruct (is_published P); cbn [negb andb]; [|reflexivity].
    destruct (String.eqb (method request) "POST"); reflexivity.
Qed.

(* ================================================================== *)
(** * Likes *)

Lemma existsb_false_filter {A : Type} (f : A -> bool) (l : list A) :
  existsb f l = false -> filter f l = [].
Proof.
  intros H. apply filter_none. intros x Hx.
  destruct (f x) eqn:E; [|reflexivity].
  assert (existsb f l = true) by (apply existsb_exists; eauto). congruence.
Qed.

Lemma filter_nil_existsb {A : Type} (f : A -> bool) (l : list A) :
  filter f l = [] -> existsb f l = false.
Proof.
  intros H. destruct (existsb f l) eqn:E; [|reflexivity].
  apply existsb_exists in E as (x & Hx & Hf).
  assert (Hin : In x (filter f l)) by (apply filter_In; auto).
  rewrite H in Hin. contradiction.
Qed.

Lemma filter_filter_length {A : Type} (f g : A -> bool) (l : list A) :
  List.length (filter f (filter g l)) <= List.length (filter f l).
Proof.
  induction l as [|a l IH]; simpl; [lia|].
  destruct (g a), (f a) eqn:E; simpl; rewrite ?E; simpl; lia.
Qed.

Lemma like_of_rows (db : DB) (P : Post) (i u : nat) :
  pk P = Some i -> filter (like_of P u) (likes db) = like_rows db i u.
Proof.
  intros Hpk. unfold like_rows. apply filter_ext. intros l.
  unfold like_of. rewrite Hpk. simpl. now rewrite Nat.eqb_sym.
Qed.

Lemma like_of_pk (P : Post) (u : nat) (l : Like) :
  like_of P u l = true -> pk P = Some (like_post_id l).
Proof.
  unfold like_of. destruct (pk P) as [i|]; simpl; [|discriminate].
  intros H. apply andb_true_iff in H as [H _].
  apply Nat.eqb_eq in H. now subst.
Qed.

(** Under the uniqueness of likes, [get] on the likes of a pair finds the
    one row or none. *)
Lemma get_like (db : DB) (P : Post) (u : nat) :
  likes_unique db ->
  (liked db P u = false /\ filter (like_of P u) (likes db) = [])
  \/ (exists like, liked db P u = true
                   /\ filter (like_of P u) (likes db) = [like]).
Proof.
  intros Hu. unfold liked.
  destruct (existsb (like_of P u) (likes db)) eqn:E.
  - right. apply existsb_exists in E as (l & Hl & Hf).
    pose proof (like_of_pk P u l Hf) as Hpk.
    pose proof (Hu (like_post_id l) u) as Hlen.
    rewrite <- (@like_of_rows db P _ u Hpk) in Hlen.
    assert (Hin : In l (filter (like_of P u) (likes db)))
      by (apply filter_In; auto).
    destruct (filter (like_of P u) (likes db)) as [|x [|y r]];
      simpl in *; [contradiction| |lia].
    destruct Hin as [->|[]]. eauto.
  - left. split; [reflexivity|]. now apply existsb_false_filter.
Qed.

Lemma next_pk_fresh (used : list nat) (i : nat) :
  In i used -> i < next_pk used.
Proof.
  unfold next_pk. induction used as [|a used IH]; simpl; [contradiction|].
  intros [->|H]; [lia|]. specialize (IH H). lia.
Qed.

Lemma liked_after_create (db : DB) (P : Post) (i u : nat) :
  pk P = Some i ->
  liked (set_likes db (likes db ++ [mkLike (next_pk (map like_pk (likes db)))
                                           i u])) P u = true.
Proof.
  intros Hpk. unfold liked, set_likes; cbn [likes].
  rewrite existsb_app. simpl. unfold like_of at 2; cbn [like_post_id like_user].
  rewrite Hpk. simpl. rewrite !Nat.eqb_refl. apply orb_true_r.
Qed.

Lemma liked_after_delete (db : DB) (P : Post) (u : nat) (like : Like) :
  filter (like_of P u) (likes db) = [like] ->
  liked (set_likes db (filter (fun l => negb (like_pk l =? like_pk like))
                              (likes db))) P u = false.
Proof.
  intros Hf. unfold liked, set_likes; cbn [likes].
  apply filter_nil_existsb.
  destruct (filter (like_of P u) (filter _ (likes db))) as [|x r] eqn:E;
    [reflexivity|].
  assert (Hx : In x (filter (like_of P u)
                            (filter (fun l => negb (like_pk l =? like_pk like))
                                    (likes db)))) by (rewrite E; now left).
  apply filter_In in Hx as [Hx Hlike]. apply filter_In in Hx as [Hx Hpk].
  assert (Hin : In x (filter (like_of P u) (likes db)))
    by (apply filter_In; auto).
  rewrite Hf in Hin. destruct Hin as [<-|[]].
  rewrite Nat.eqb_refl in Hpk. discriminate.
Qed.

(** What [like_post] does for a signed-in user on an existing post. *)
Lemma like_post_toggles (db : DB) (request : HttpRequest) (P : Post)
      (i u : nat) :
  slugs_unique db -> In P (posts db) -> pk P = Some i ->
  likes_unique db -> user request = User u ->
  (liked db P u = false
   /\ like_post db request (slug P)
      = (set_likes db (likes db ++ [mkLike (next_pk (map like_pk (likes db)))
                                           i u]),
         [(Success, "Post liked.")], Redirect (get_absolute_url P)))
  \/ (exists like,
         liked db P u = true
         /\ filter (like_of P u) (likes db) = [like]
         /\ like_post db request (slug P)
            = (set_likes db (filter (fun l => negb (like_pk l =? like_pk like))
                                    (likes db)),
               [(Info, "Like removed.")], Redirect (get_absolute_url P))).
Proof.
  intros Hs Hin Hpk Hu Hreq. unfold like_post.
  rewrite (@get_by_slug db P Hs Hin), Hreq. unfold get.
  destruct (@get_like db P u Hu) as [[Hl Hf]|(like & Hl & Hf)]; rewrite Hf.
  - left. rewrite Hpk. auto.
  - right. exists like. auto.
Qed.

Lemma likes_unique_delete (db : DB) (g : Like -> bool) :
  likes_unique db -> likes_unique (set_likes db (filter g (likes db))).
Proof.
  intros Hu p u. unfold like_rows, set_likes; cbn [likes].
  etransitivity; [apply filter_filter_length|apply Hu].
Qed.

Lemma likes_unique_create (db : DB) (P : Post) (n i u : nat) :
  likes_unique db -> pk P = Some i ->
  filter (like_of P u) (likes db) = [] ->
  likes_unique (set_likes db (likes db ++ [mkLike n i u])).
Proof.
  intros Hu Hpk Hnone p' u'. unfold like_rows, set_likes; cbn [likes].
  rewrite filter_app, length_app. cbn [filter like_post_id like_user].
  destruct ((i =? p') && (u =? u')) eqn:E; simpl.
  - apply andb_true_iff in E as [Ei Eu].
    apply Nat.eqb_eq in Ei, Eu. subst p' u'.
    fold (like_rows db i u). rewrite <- (@like_of_rows db P i u Hpk), Hnone.
    simpl. lia.
  - pose proof (Hu p' u') as H. unfold like_rows in H. lia.
Qed.

(** [like_post] keeps the likes unique, whatever the request. *)
Lemma like_post_likes_unique (db : DB) (request : HttpRequest)
      (slug_kw : string) :
  likes_unique db -> likes_unique (fst (fst (like_post db request slug_kw))).
Proof.
  intros Hu. unfold like_post.
  destruct (get _ (posts db)) as [post| |]; try exact Hu.
  destruct (user request) as [|u]; [exact Hu|].
  unfold get. destruct (filter (like_of post u) (likes db))
    as [|like [|like' r]] eqn:Hf; cbn [fst]; try exact Hu.
  - destruct (pk post) as [i|] eqn:Hpk; cbn [fst]; [|exact Hu].
    now apply likes_unique_create with (P := post).
  - now apply likes_unique_delete.
Qed.

(** C3.  For a signed-in user and an existing post, [like_post] creates
    the like of the pair when there is none and reports "Post liked.",
    deletes it when there is one and reports "Like removed."; two calls in
    a row bring the like-state of the pair back to where it was. *)
Theorem toggle_like_twice (db : DB) (request : HttpRequest) (P : Post)
        (i u : nat) :
  slugs_unique db -> In P (posts db) -> pk P = Some i ->
  likes_unique db -> user request = User u ->
  let r1 := like_post db request (slug P) in
  let db1 := fst (fst r1) in
  let db2 := fst (fst (like_post db1 request (slug P))) in
  (liked db P u = false ->
   liked db1 P u = true
   /\ List.length (like_rows db1 i u) = 1
   /\ snd (fst r1) = [(Success, "Post liked.")])
  /\ (liked db P u = true ->
      liked db1 P u = false
      /\ like_rows db1 i u = []
      /\ snd (fst r1) = [(Info, "Like removed.")])
  /\ snd r1 = Redirect (get_absolute_url P)
  /\ liked db2 P u = liked db P u.
Proof.
  intros Hs Hin Hpk Hu Hreq r1 db1 db2.
  assert (Hu1 : likes_unique db1) by (apply like_post_likes_unique, Hu).
  assert (Hfirst :
            (liked db P u = false /\ liked db1 P u = true
             /\ snd (fst r1) = [(Success, "Post liked.")])
            \/ (liked db P u = true /\ liked db1 P u = false
                /\ snd (fst r1) = [(Info, "Like removed.")])).
  { destruct (@like_post_toggles db request P i u Hs Hin Hpk Hu Hreq)
      as [[Hl E]|(like & Hl & Hf & E)];
      unfold db1, r1; rewrite E; cbn [fst snd]; [left|right];
      repeat split; trivial.
    - now apply liked_after_create.
    - now apply liked_after_delete. }
  assert (Hposts : posts db1 = posts db).
  { unfold db1, r1.
    destruct (@like_post_toggles db request P i u Hs Hin Hpk Hu Hreq)
      as [[_ E]|(like & _ & _ & E)]; rewrite E; reflexivity. }
  assert (Hs1 : slugs_unique db1) by (unfold slugs_unique; now rewrite Hposts).
  assert (Hin1 : In P (posts db1)) by now rewrite Hposts.
  assert (Hrows : forall d, likes_unique d -> liked d P u = true ->
                            List.length (like_rows d i u) = 1).
  { intros d Hd Hl. destruct (@get_like d P u Hd) as [[Hl' _]|(x & _ & Hf)];
      [congruence|]. now rewrite <- (@like_of_rows d P i u Hpk), Hf. }
  assert (Hnorows : forall d, liked d P u = false -> like_rows d i u = []).
  { intros d Hl. rewrite <- (@like_of_rows d P i u Hpk).
    now apply existsb_false_filter. }
  split; [intros Hl0; repeat split|split; [intros Hl0; repeat split|split]].
  - destruct Hfirst as [(_ & X & _)|(X & _)]; congruence.
  - apply Hrows; [assumption|].
    destruct Hfirst as [(_ & X & _)|(X & _)]; congruence.
  - destruct Hfirst as [(_ & _ & X)|(X & _)]; congruence.
  - destruct Hfirst as [(X & _)|(_ & X & _)]; congruence.
  - apply Hnorows. destruct Hfirst as [(X & _)|(_ & X & _)]; congruence.
  - destruct Hfirst as [(X & _)|(_ & _ & X)]; congruence.
  - unfold r1.
    destruct (@like_post_toggles db request P i u Hs Hin Hpk Hu Hreq)
      as [[_ E]|(like & _ & _ & E)]; rewrite E; reflexivity.
  - unfold db2.
    destruct (@like_post_toggles db1 request P i u Hs1 Hin1 Hpk Hu1 Hreq)
      as [[Hl E]|(like & Hl & Hf & E)]; rewrite E; cbn [fst].
    + rewrite liked_after_create by assumption.
      destruct Hfirst as [(_ & X & _)|(X & _)]; congruence.
    + rewrite liked_after_delete by assumption.
      destruct Hfirst as [(X & _)|(_ & X & _)]; congruence.
Qed.

Lemma likes_unique_same_likes (db db' : DB) :
  likes db' = likes db -> likes_unique db -> likes_unique db'.
Proof.
  intros E Hu p u. specialize (Hu p u). unfold like_rows in *.
  now rewrite E.
Qed.

Lemma post_detail_likes
      (CommentForm_clean : list (string * string) -> option string)
      (db : DB) (now : nat) (request : HttpRequest) (slug_kw : string) :
  likes (fst (fst (post_detail CommentForm_clean db now request slug_kw)))
  = likes db.
Proof.
  unfold post_detail.
  destruct (get _ (posts db)) as [post| |]; try reflexivity.
  destruct (negb (is_published post) && negb (author_is post (user request)));
    [reflexivity|].
  destruct (String.eqb (method request) "POST"); [|reflexivity].
  destruct (user request); [reflexivity|].
  destruct (CommentForm_clean (POST request)); [|reflexivity].
  destruct (pk post); reflexivity.
Qed.

Lemma Model_save_likes (db : DB) (now : nat) (self self' : Post) (db' : DB) :
  Model_save db now self = Saved self' db' -> likes db' = likes db.
Proof.
  unfold Model_save. destruct (existsb _ (posts db)); [discriminate|].
  destruct (pk self) as [i|].
  - destruct (existsb _ (posts db)); intros E; inversion E; reflexivity.
  - intros E; inversion E; reflexivity.
Qed.

Lemma Post_save_likes (slugify : string -> string) (db : DB) (now : nat)
      (self self' : Post) (db' : DB) :
  Post_save slugify db now self = Saved self' db' -> likes db' = likes db.
Proof.
  unfold Post_save. destruct (negb (truthy (slug self))).
  - destruct (probe _ _ _ _ _); [|discriminate]. apply Model_save_likes.
  - apply Model_save_likes.
Qed.

Lemma Post_delete_likes_unique (db : DB) (self : Post) :
  likes_unique db -> likes_unique (Post_delete db self).
Proof.
  intros Hu. unfold Post_delete. destruct (pk self) as [i|]; [|exact Hu].
  intros p u. unfold like_rows; cbn [likes].
  etransitivity; [apply filter_filter_length|apply Hu].
Qed.

(** C4.  At most one [Like] row per (post, user): every operation on the
    store keeps it so, [like_post] in particular, and so it holds in every
    store the application reaches from the empty one. *)
Theorem likes_stay_unique :
  (forall (slugify : string -> string)
          (CommentForm_clean : list (string * string) -> option string)
          (db db' : DB),
      step slugify CommentForm_clean db db' ->
      likes_unique db -> likes_unique db')
  /\ (forall (db : DB) (request : HttpRequest) (slug_kw : string),
         likes_unique db ->
         likes_unique (fst (fst (like_post db request slug_kw))))
  /\ (forall (slugify : string -> string)
             (CommentForm_clean : list (string * string) -> option string)
             (db : DB),
         reachable slugify CommentForm_clean db ->
         forall p u, List.length (like_rows db p u) <= 1).
Proof.
  assert (Hstep : forall slugify CommentForm_clean db db',
             step slugify CommentForm_clean db db' ->
             likes_unique db -> likes_unique db').
  { intros slugify clean db db' Hst Hu.
    destruct Hst as [db request s|db now request s|db now self self' db' E
                     |db self].
    - now apply like_post_likes_unique.
    - eapply likes_unique_same_likes; [apply post_detail_likes|exact Hu].
    - eapply likes_unique_same_likes; [eapply Post_save_likes, E|exact Hu].
    - now apply Post_delete_likes_unique. }
  split; [exact Hstep|]. split; [apply like_post_likes_unique|].
  intros slugify clean db Hr.
  induction Hr as [|db db' Hr IH Hst].
  - intros p u. simpl. lia.
  - exact (Hstep _ _ _ _ Hst IH).
Qed.

(* ================================================================== *)
(** * Ordering of query sets *)

Section Ordering.

Context {A : Type} (key : A -> nat).

Lemma insert_desc_In (x y : A) (l : list A) :
  In y (insert_desc key x l) <-> y = x \/ In y l.
Proof.
  induction l as [|a l IH]; simpl.
  - intuition.
  - destruct (key a <=? key x); simpl; [intuition|].
    rewrite IH. intuition.
Qed.

Lemma order_by_desc_In (y : A) (l : list A) :
  In y (order_by_desc key l) <-> In y l.
Proof.
  induction l as [|a l IH]; simpl; [reflexivity|].
  rewrite insert_desc_In, IH. intuition.
Qed.

Lemma insert_desc_sorted (x : A) (l : list A) :
  newest_first key l -> newest_first key (insert_desc key x l).
Proof.
  unfold newest_first.
  induction l as [|a l IH]; simpl; intros Hs.
  - repeat constructor.
  - apply StronglySorted_inv in Hs as [Hs Hall].
    destruct (key a <=? key x) eqn:E.
    + apply Nat.leb_le in E. constructor.
      * now constructor.
      * constructor; [lia|].
        eapply Forall_impl; [|exact Hall]. simpl. intros b Hb. lia.
    + apply Nat.leb_gt in E. constructor; [auto|].
      apply Forall_forall. intros b Hb.
      apply insert_desc_In in Hb as [->|Hb]; [lia|].
      rewrite Forall_forall in Hall. auto.
Qed.

Lemma order_by_desc_sorted (l : list A) : newest_first key (order_by_desc key l).
Proof.
  induction l as [|a l IH]; simpl.
  - constructor.
  - now apply insert_desc_sorted.
Qed.


End Ordering.


(* ================================================================== *)
(** * What the listings contain *)

Lemma is_published_status (p : Post) :
  is_published p = true <-> status p = "published".
Proof. unfold is_published. apply String.eqb_eq. Qed.


(** The rows of [PostListView.get_queryset]: the published posts, narrowed
    to the matches of the query when there is a non-empty one. *)
Lemma PostListView_In (db : DB) (request : HttpRequest) (p : Post) :
  In p (PostListView_get_queryset db request)
  <-> In p (posts db) /\ is_published p = true
      /\ match QueryDict_get "q" (GET request) with
         | Some query =>
             truthy query = true ->
             icontains (title p) query || icontains (content p) query = true
         | None => True
         end.
Proof.
  unfold PostListView_get_queryset, Post_objects.
  rewrite order_by_desc_In, filter_In.
  destruct (QueryDict_get "q" (GET request)) as [query|]; [|tauto].
  destruct (truthy query).
  - rewrite andb_true_iff. tauto.
  - intuition discriminate.
Qed.

(** C6.  The post list and the tag list hold published posts only, whatever
    the query text or the tag; the dashboard holds exactly the posts whose
    author is the signed-in user, published or not, each with its number of
    likes. *)
Theorem listings_published_only :
  (forall db request p,
      In p (PostListView_get_queryset db request) -> status p = "published")
  /\ (forall db tag_slug_kw rows p,
         TagListView_get_queryset db tag_slug_kw = Rows rows ->
         In p rows -> status p = "published")
  /\ (forall db u p n,
         In (p, n) (DashboardView_get_context_data db u)
         <-> In p (posts db) /\ author p = u /\ n = like_count db p).
Proof.
  split; [|split].
  - intros db request p H. apply PostListView_In in H.
    now apply is_published_status.
  - intros db t rows p. unfold TagListView_get_queryset.
    destruct (get _ (tags db)) as [tag| |]; try discriminate.
    intros E; inversion E; subst; clear E. intros H.
    apply order_by_desc_In, nodup_In, in_flat_map in H as (q & Hq & Hp).
    apply in_map_iff in Hp as (ti & <- & _).
    apply filter_In in Hq as [_ Hq]. now apply is_published_status.
  - intros db u p n. unfold DashboardView_get_context_data.
    rewrite order_by_desc_In, in_map_iff. split.
    + intros (q & E & Hq). inversion E; subst.
      apply filter_In in Hq as [Hin Ha]. apply Nat.eqb_eq in Ha. auto.
    + intros (Hin & Ha & ->). exists p. split; [reflexivity|].
      apply filter_In. split; [assumption|]. now apply Nat.eqb_eq.
Qed.

(** ** The lookup against the plain notion of occurrence *)












(* ================================================================== *)
(** * Saving a post again *)

(** A post that carries a non-empty slug keeps it on every later save,
    whatever its title has become. *)
Lemma Post_save_keeps_slug (slugify : string -> string) (db : DB) (now : nat)
      (self self' : Post) (db' : DB) :
  slug self <> "" ->
  Post_save slugify db now self = Saved self' db' -> slug self' = slug self.
Proof.
  intros Hne. unfold Post_save.
  assert (Ht : truthy (slug self) = true)
    by (destruct (slug self); [contradiction|reflexivity]).
  rewrite Ht. cbn [negb]. unfold Model_save.
  destruct (existsb _ (posts db)); [discriminate|].
  destruct (pk self) as [i|].
  - destruct (existsb _ (posts db)); intros E; inversion E; reflexivity.
  - intros E; inversion E; reflexivity.
Qed.

(** C8 at a title without letters or digits.  The first save of a post
    titled "!!!" assigns the empty slug; the next save of the same post,
    title untouched, takes the empty slug for a missing one, computes it
    again and stores "-2": the slug of the row has changed. *)
Theorem resave_recomputes_empty_slug :
  exists p1 db1 p2 db2,
    Post_save django_slugify empty_db 1 (new_post "!!!" 1 "text" "published")
    = Saved p1 db1
    /\ slug p1 = ""
    /\ Post_save django_slugify db1 2 p1 = Saved p2 db2
    /\ pk p2 = pk p1
    /\ title p2 = title p1
    /\ slug p2 = "-2"
    /\ map slug (posts db2) = ["-2"].
Proof. do 4 eexists. repeat split; reflexivity. Qed.

(* ================================================================== *)
(** * Worked examples *)

Example slugify_examples :
  django_slugify "My First Post!" = "my-first-post"
  /\ django_slugify "  --Hello,   World_ - " = "hello-world"
  /\ django_slugify "!!!" = "".
Proof. repeat split; reflexivity. Qed.

Lemma sample_slugs_unique : slugs_unique sample_db.
Proof.
  unfold slugs_unique. simpl.
  repeat constructor; simpl; intuition discriminate.
Defined.

Lemma sample_likes_unique : likes_unique sample_db.
Proof.
  intros p u. unfold like_rows, sample_db; cbn [likes filter].
  match goal with |- context [if ?b then _ else _] => destruct b end;
    simpl; lia.
Defined.

(** Two posts titled "Hello World" added to the sample store, which has a
    "hello-world" already: the slugs differ. *)
Lemma identical_titles_distinct_slugs_witness :
  exists p1 db1 p2 db2,
    Post_save django_slugify sample_db 30
              (new_post "Hello World" 1 "a" "draft") = Saved p1 db1
    /\ Post_save django_slugify db1 31
                 (new_post "Hello World" 2 "b" "draft") = Saved p2 db2
    /\ slug p1 <> slug p2.
Proof.
  destruct (proj1 identical_titles_distinct_slugs django_slugify sample_db
                  30 31 "Hello World" 1 2 "a" "b" "draft" "draft")
    as (p1 & db1 & p2 & db2 & k & E1 & E2 & Hne & _).
  exists p1, db1, p2, db2. auto.
Defined.

(** User 2 is turned away from the draft of user 1. *)
Lemma draft_visible_to_author_only_witness :
  slugs_unique sample_db /\ In sample_draft (posts sample_db)
  /\ post_detail sample_form sample_db 40 reader_get "notes"
     = (sample_db, [(Warning, "This post is not published.")],
        Redirect (mkUrl "post_list" [])).
Proof.
  assert (Hin : In sample_draft (posts sample_db)) by (simpl; auto).
  split; [exact sample_slugs_unique|]. split; [exact Hin|].
  destruct (@draft_visible_to_author_only sample_form sample_db 40 reader_get
              sample_draft sample_slugs_unique Hin) as [Hdraft _].
  destruct (Hdraft eq_refl) as [Hturned _].
  apply Hturned. simpl. discriminate.
Defined.

(** User 2 likes the published post of the sample store already: one call
    removes the like, the next one puts it back. *)
Lemma toggle_like_twice_witness :
  liked sample_db sample_published 2 = true
  /\ liked (fst (fst (like_post sample_db reader_like "hello-world")))
           sample_published 2 = false
  /\ liked (fst (fst (like_post
                        (fst (fst (like_post sample_db reader_like
                                             "hello-world")))
                        reader_like "hello-world")))
           sample_published 2 = true.
Proof.
  assert (Hin : In sample_published (posts sample_db)) by (simpl; auto).
  destruct (@toggle_like_twice sample_db reader_like sample_published 1 2
              sample_slugs_unique Hin eq_refl sample_likes_unique eq_refl)
    as (_ & Hdel & _ & Htwice).
  split; [reflexivity|]. split.
  - apply (Hdel eq_refl).
  - exact Htwice.
Defined.

(** The like of user 2 on the sample store: still at most one row for the
    pair afterwards. *)
Lemma likes_stay_unique_witness :
  likes_unique sample_db
  /\ List.length
       (like_rows (fst (fst (like_post sample_db reader_like "hello-world")))
                  1 2) <= 1.
Proof.
  split; [exact sample_likes_unique|].
  apply (proj1 (proj2 likes_stay_unique) sample_db reader_like "hello-world"
               sample_likes_unique).
Defined.

(** An anonymous like and an anonymous comment on the published post of the
    sample store both lead to the login page and leave the store alone. *)
Lemma anonymous_interaction_requires_login_witness :
  like_post sample_db anonymous_post "hello-world"
  = (sample_db, [(Error, "Login required to like posts.")],
     Redirect (mkUrl "login" []))
  /\ post_detail sample_form sample_db 40 anonymous_post "hello-world"
     = (sample_db, [(Error, "Login required to comment.")],
        Redirect (mkUrl "login" [])).
Proof.
  assert (Hin : In sample_published (posts sample_db)) by (simpl; auto).
  destruct (@anonymous_interaction_requires_login sample_form sample_db 40
              anonymous_post sample_published sample_slugs_unique Hin eq_refl)
    as (Hlike & Hcomment & _).
  split; [exact Hlike|].
  exact (proj1 (Hcomment eq_refl) eq_refl).
Defined.

(** An anonymous comment on the draft of the sample store is answered by
    the redirect to the listing with "This post is not published.", not by
    the redirect to the login page. *)
Lemma anonymous_comment_on_draft :
  In sample_draft (posts sample_db)
  /\ user anonymous_post = AnonymousUser
  /\ method anonymous_post = "POST"
  /\ post_detail sample_form sample_db 40 anonymous_post (slug sample_draft)
     = (sample_db, [(Warning, "This post is not published.")],
        Redirect (mkUrl "post_list" []))
  /\ snd (post_detail sample_form sample_db 40 anonymous_post
                      (slug sample_draft))
     <> Redirect (mkUrl "login" []).
Proof.
  repeat split; [simpl; auto|]. simpl. discriminate.
Qed.

(** No post of the sample store has the slug "missing". *)
Lemma unknown_slug_not_found_witness :
  post_detail sample_form sample_db 40 anonymous_post "missing"
  = (sample_db, [], Http404)
  /\ like_post sample_db anonymous_post "missing" = (sample_db, [], Http404).
Proof.
  apply unknown_slug_not_found.
  intros p Hp. simpl in Hp.
  destruct Hp as [<-|[<-|[]]]; simpl; discriminate.
Defined.

(** The tag list for "news" on the sample store holds the published post. *)
Lemma listings_published_only_witness :
  TagListView_get_queryset sample_db "news" = Rows [sample_published]
  /\ status sample_published = "published".
Proof.
  split; [reflexivity|].
  apply (proj1 (proj2 listings_published_only) sample_db "news"
               [sample_published] sample_published eq_refl).
  simpl; auto.
Defined.




(* ================================================================== *)
(** * Integrity of the store under the operations *)

Lemma option_nat_eqb_eq (a b : option nat) :
  option_nat_eqb a b = true <-> a = b.
Proof.
  destruct a as [x|], b as [y|]; simpl; split; try discriminate; trivial.
  - intros E. apply Nat.eqb_eq in E. now subst.
  - intros E. inversion E. apply Nat.eqb_refl.
Qed.

Lemma option_nat_eqb_neq (a b : option nat) :
  option_nat_eqb a b = false <-> a <> b.
Proof.
  rewrite <- option_nat_eqb_eq.
  destruct (option_nat_eqb a b); intuition discriminate.
Qed.

Lemma NoDup_snoc {A : Type} (l : list A) (x : A) :
  NoDup l -> ~ In x l -> NoDup (l ++ [x]).
Proof.
  intros Hnd Hx. induction l as [|a l IH]; simpl.
  - repeat constructor. auto.
  - inversion Hnd as [|? ? Ha Hl]; subst. constructor.
    + rewrite in_app_iff. simpl. intros [H|[H|[]]]; [auto|].
      apply Hx. now left.
    + apply IH; [assumption|]. intros H. apply Hx. now right.
Qed.

Lemma NoDup_map_filter {A B : Type} (f : A -> B) (g : A -> bool)
      (l : list A) :
  NoDup (map f l) -> NoDup (map f (filter g l)).
Proof.
  induction l as [|a l IH]; simpl; intros Hnd; [constructor|].
  inversion Hnd as [|? ? Ha Hl]; subst.
  destruct (g a); simpl; [|auto]. constructor; [|auto].
  intros H. apply Ha. apply in_map_iff in H as (x & E & Hx).
  apply filter_In in Hx as [Hx _]. rewrite <- E. now apply in_map.
Qed.

Lemma next_pk_not_in (used : list nat) : ~ In (next_pk used) used.
Proof. intros H. apply next_pk_fresh in H. lia. Qed.

Lemma post_pks_In (db : DB) (i : nat) :
  In i (post_pks db) <-> In (Some i) (map pk (posts db)).
Proof.
  unfold post_pks. rewrite in_flat_map, in_map_iff. split.
  - intros (p & Hp & Hi). exists p. split; [|assumption].
    destruct (pk p); simpl in Hi; [|contradiction].
    destruct Hi as [->|[]]. reflexivity.
  - intros (p & E & Hp). exists p. split; [assumption|].
    rewrite E. now left.
Qed.

(** Replacing the row of primary key [i] by a row of the same key whose
    slug no other row carries keeps keys and slugs unique. *)
Lemma update_row_ok (l : list Post) (i : nat) (row : Post) :
  pk row = Some i ->
  NoDup (map pk l) -> NoDup (map slug l) ->
  (forall r, In r l -> slug r = slug row -> pk r = Some i) ->
  let l' := map (fun r => if option_nat_eqb (pk r) (Some i) then row else r)
                l in
  map pk l' = map pk l /\ NoDup (map slug l').
Proof.
  intros Hrow Hpk Hslug Hown. cbv zeta.
  induction l as [|a l IH]; simpl; [split; [reflexivity|constructor]|].
  inversion Hpk as [|? ? Hpa Hpl]; inversion Hslug as [|? ? Hsa Hsl]; subst.
  destruct IH as [IHpk IHslug]; trivial.
  { intros r Hr. apply Hown. now right. }
  assert (Hin : forall s, In s (map slug (map (fun r =>
                 if option_nat_eqb (pk r) (Some i) then row else r) l)) ->
               s = slug row \/ In s (map slug l)).
  { intros s Hs. apply in_map_iff in Hs as (x & <- & Hx).
    apply in_map_iff in Hx as (r & <- & Hr).
    destruct (option_nat_eqb (pk r) (Some i)); [now left|].
    right. now apply in_map. }
  destruct (option_nat_eqb (pk a) (Some i)) eqn:E.
  - apply option_nat_eqb_eq in E. split.
    + simpl. now rewrite IHpk, Hrow, E.
    + simpl. constructor; [|assumption].
      intros Hs. apply in_map_iff in Hs as (x & Ex & Hx).
      apply in_map_iff in Hx as (r & <- & Hr).
      assert (Hne : pk r <> Some i).
      { intros Er. apply Hpa. rewrite E, <- Er. now apply in_map. }
      pose proof (proj2 (option_nat_eqb_neq _ _) Hne) as Hb.
      rewrite Hb in Ex.
      apply Hne. apply Hown; [now right|assumption].
  - apply option_nat_eqb_neq in E. split.
    + simpl. now rewrite IHpk.
    + simpl. constructor; [|assumption].
      intros Hs. apply Hin in Hs as [Hs|Hs]; [|contradiction].
      apply E. apply Hown; [now left|assumption].
Qed.

Lemma update_row_pk_some (l : list Post) (i : nat) (row : Post) (p : Post) :
  pk row = Some i -> (forall r, In r l -> pk r <> None) ->
  In p (map (fun r => if option_nat_eqb (pk r) (Some i) then row else r) l) ->
  pk p <> None.
Proof.
  intros Hrow Hall Hp. apply in_map_iff in Hp as (r & <- & Hr).
  destruct (option_nat_eqb (pk r) (Some i)); [congruence|auto].
Qed.

(** What [Model.save] lets through carries a slug that is free or the
    instance's own. *)
Lemma Model_save_slug_own (db : DB) (now : nat) (self self' : Post)
      (db' : DB) :
  Model_save db now self = Saved self' db' ->
  forall r, In r (posts db) -> slug r = slug self -> pk r = pk self.
Proof.
  unfold Model_save.
  destruct (existsb _ (posts db)) eqn:E; [discriminate|].
  intros _ r Hr Hs.
  destruct (option_nat_eqb (pk r) (pk self)) eqn:Ep;
    [now apply option_nat_eqb_eq|].
  assert (existsb (fun r => String.eqb (slug r) (slug self)
                            && negb (option_nat_eqb (pk r) (pk self)))
                  (posts db) = true); [|congruence].
  apply existsb_exists. exists r. split; [assumption|].
  rewrite Ep. rewrite Hs, String.eqb_refl. reflexivity.
Qed.

Lemma Model_save_posts_ok (db : DB) (now : nat) (self self' : Post)
      (db' : DB) :
  posts_ok db -> Model_save db now self = Saved self' db' -> posts_ok db'.
Proof.
  intros (Hpk & Hsome & Hslug) E.
  pose proof (Model_save_slug_own db now self E) as Hown.
  unfold Model_save in E.
  destruct (existsb _ (posts db)); [discriminate|].
  assert (Hinsert : forall i,
             ~ In (Some i) (map pk (posts db)) -> pk self <> None \/ True ->
             (forall r, In r (posts db) -> slug r = slug self ->
                        pk r = Some i \/ pk r = None) ->
             posts_ok
               (set_posts db
                  (posts db ++ [mkPost (Some i) (title self) (slug self)
                                       (author self) (content self)
                                       (status self) now now]))).
  { intros i Hfresh _ Hfree. unfold posts_ok, set_posts; cbn [posts].
    rewrite !map_app. simpl. repeat split.
    - now apply NoDup_snoc.
    - intros p Hp. apply in_app_iff in Hp as [Hp|[<-|[]]]; [auto|discriminate].
    - apply NoDup_snoc; [assumption|].
      intros Hs. apply in_map_iff in Hs as (r & Er & Hr).
      destruct (Hfree r Hr Er) as [Hi|Hn].
      + apply Hfresh. rewrite <- Hi. now apply in_map.
      + now apply (Hsome r Hr). }
  destruct (pk self) as [i|] eqn:Hself.
  - destruct (existsb (fun r => option_nat_eqb (pk r) (Some i)) (posts db))
      eqn:Ex; inversion E; subst; clear E.
    + destruct (@update_row_ok (posts db) i
                  (mkPost (Some i) (title self) (slug self) (author self)
                          (content self) (status self) (created_at self) now)
                  eq_refl Hpk Hslug) as [Epk Hs].
      { intros r Hr Er. now apply Hown. }
      unfold posts_ok, set_posts; cbn [posts]. repeat split.
      * now rewrite Epk.
      * intros p Hp. eapply update_row_pk_some; [|exact Hsome|exact Hp].
        reflexivity.
      * assumption.
    + apply Hinsert; [|now left|].
      * intros Hin. apply in_map_iff in Hin as (r & Er & Hr).
        assert (existsb (fun r => option_nat_eqb (pk r) (Some i)) (posts db)
                = true); [|congruence].
        apply existsb_exists. exists r. split; [assumption|].
        now apply option_nat_eqb_eq.
      * intros r Hr Er. left. now apply Hown.
  - inversion E; subst; clear E. apply Hinsert; [|now right|].
    + intros Hin. apply post_pks_In in Hin. now apply next_pk_not_in in Hin.
    + intros r Hr Er. right. now apply Hown.
Qed.

Lemma Post_save_posts_ok (slugify : string -> string) (db : DB) (now : nat)
      (self self' : Post) (db' : DB) :
  posts_ok db -> Post_save slugify db now self = Saved self' db' ->
  posts_ok db'.
Proof.
  intros Hok. unfold Post_save. destruct (negb (truthy (slug self))).
  - destruct (probe _ _ _ _ _); [|discriminate].
    now apply Model_save_posts_ok.
  - now apply Model_save_posts_ok.
Qed.

Lemma Model_save_frame (db : DB) (now : nat) (self self' : Post) (db' : DB) :
  Model_save db now self = Saved self' db' ->
  comments db' = comments db /\ likes db' = likes db
  /\ tags db' = tags db /\ tagged_items db' = tagged_items db.
Proof.
  unfold Model_save. destruct (existsb _ (posts db)); [discriminate|].
  destruct (pk self) as [i|].
  - destruct (existsb _ (posts db)); intros E; inversion E; auto.
  - intros E; inversion E; auto.
Qed.

Lemma Post_save_frame (slugify : string -> string) (db : DB) (now : nat)
      (self self' : Post) (db' : DB) :
  Post_save slugify db now self = Saved self' db' ->
  comments db' = comments db /\ likes db' = likes db
  /\ tags db' = tags db /\ tagged_items db' = tagged_items db.
Proof.
  unfold Post_save. destruct (negb (truthy (slug self))).
  - destruct (probe _ _ _ _ _); [|discriminate]. apply Model_save_frame.
  - apply Model_save_frame.
Qed.

(** The ways [post_detail] can end: the store as it was, or one comment
    appended by a signed-in user who may see the post. *)
Lemma post_detail_cases
      (CommentForm_clean : list (string * string) -> option string)
      (db : DB) (now : nat) (request : HttpRequest) (slug_kw : string) :
  fst (fst (post_detail CommentForm_clean db now request slug_kw)) = db
  \/ exists post u cleaned_body i,
      get (fun p => String.eqb (slug p) slug_kw) (posts db) = Found post
      /\ user request = User u
      /\ method request = "POST"
      /\ CommentForm_clean (POST request) = Some cleaned_body
      /\ pk post = Some i
      /\ (is_published post = true \/ author post = u)
      /\ post_detail CommentForm_clean db now request slug_kw
         = (set_comments db
              (comments db
               ++ [mkComment (next_pk (map comment_pk (comments db)))
                             i u cleaned_body now]),
            [(Success, "Comment added.")],
            Redirect (get_absolute_url post)).
Proof.
  unfold post_detail.
  destruct (get _ (posts db)) as [post| |]; try (left; reflexivity).
  destruct (is_published post) eqn:Hpub; cbn [negb andb].
  - destruct (String.eqb_spec (method request) "POST") as [Hm|_];
      [|left; reflexivity].
    destruct (user request) as [|u] eqn:Hu; [left; reflexivity|].
    destruct (CommentForm_clean (POST request)) as [b|] eqn:Hc;
      [|left; reflexivity].
    destruct (pk post) as [i|] eqn:Hpk; [|left; reflexivity].
    right. exists post, u, b, i. repeat split; auto.
  - destruct (author_is post (user request)) eqn:Ha; cbn [negb];
      [|left; reflexivity].
    destruct (String.eqb_spec (method request) "POST") as [Hm|_];
      [|left; reflexivity].
    destruct (user request) as [|u] eqn:Hu; [left; reflexivity|].
    destruct (CommentForm_clean (POST request)) as [b|] eqn:Hc;
      [|left; reflexivity].
    destruct (pk post) as [i|] eqn:Hpk; [|left; reflexivity].
    right. exists post, u, b, i. repeat split; auto.
    right. simpl in Ha. now apply Nat.eqb_eq in Ha.
Qed.

(** The ways [like_post] can end: the store as it was, one like appended,
    or the rows of one primary key deleted. *)
Lemma like_post_cases (db : DB) (request : HttpRequest) (slug_kw : string) :
  fst (fst (like_post db request slug_kw)) = db
  \/ (exists post u i,
         get (fun p => String.eqb (slug p) slug_kw) (posts db) = Found post
         /\ user request = User u /\ pk post = Some i
         /\ filter (like_of post u) (likes db) = []
         /\ like_post db request slug_kw
            = (set_likes db
                 (likes db ++ [mkLike (next_pk (map like_pk (likes db))) i u]),
               [(Success, "Post liked.")], Redirect (get_absolute_url post)))
  \/ (exists post u like,
         get (fun p => String.eqb (slug p) slug_kw) (posts db) = Found post
         /\ user request = User u
         /\ filter (like_of post u) (likes db) = [like]
         /\ like_post db request slug_kw
            = (set_likes db
                 (filter (fun l => negb (like_pk l =? like_pk like))
                         (likes db)),
               [(Info, "Like removed.")], Redirect (get_absolute_url post))).
Proof.
  unfold like_post.
  destruct (get _ (posts db)) as [post| |]; try (left; reflexivity).
  destruct (user request) as [|u]; [left; reflexivity|].
  unfold get.
  destruct (filter (like_of post u) (likes db)) as [|like [|like' r]] eqn:Hf;
    [|right; right; exists post, u, like; auto|left; reflexivity].
  destruct (pk post) as [i|] eqn:Hpk; [|left; reflexivity].
  right; left. exists post, u, i. auto.
Qed.

Lemma like_post_store_ok (db : DB) (request : HttpRequest)
      (slug_kw : string) :
  store_ok db -> store_ok (fst (fst (like_post db request slug_kw))).
Proof.
  intros Hok.
  destruct (like_post_cases db request slug_kw)
    as [E|[(post & u & i & _ & _ & _ & _ & E)|(post & u & like & _ & _ & _ & E)]];
    rewrite E; [assumption| |]; cbn [fst];
    destruct Hok as (Hp & Hl & Hc); unfold store_ok, set_likes;
    cbn [likes comments]; (split; [exact Hp|]).
  - repeat split; trivial. rewrite map_app. simpl.
    apply NoDup_snoc; [assumption|apply next_pk_not_in].
  - repeat split; trivial. now apply NoDup_map_filter.
Qed.

Lemma post_detail_store_ok
      (CommentForm_clean : list (string * string) -> option string)
      (db : DB) (now : nat) (request : HttpRequest) (slug_kw : string) :
  store_ok db ->
  store_ok (fst (fst (post_detail CommentForm_clean db now request slug_kw))).
Proof.
  intros Hok.
  destruct (post_detail_cases CommentForm_clean db now request slug_kw)
    as [E|(post & u & b & i & _ & _ & _ & _ & _ & _ & E)];
    rewrite E; [assumption|]; cbn [fst].
  destruct Hok as (Hp & Hl & Hc). unfold store_ok, set_comments;
    cbn [likes comments]. split; [exact Hp|].
  repeat split; trivial. rewrite map_app. simpl.
  apply NoDup_snoc; [assumption|apply next_pk_not_in].
Qed.

Lemma Post_delete_store_ok (db : DB) (self : Post) :
  store_ok db -> store_ok (Post_delete db self).
Proof.
  intros ((Hpk & Hsome & Hslug) & Hl & Hc). unfold Post_delete.
  destruct (pk self) as [i|]; [|repeat split; assumption].
  unfold store_ok, posts_ok; cbn [posts likes comments]. repeat split;
    try now apply NoDup_map_filter.
  intros p Hp. apply filter_In in Hp as [Hp _]. auto.
Qed.

Lemma Post_save_store_ok (slugify : string -> string) (db : DB) (now : nat)
      (self self' : Post) (db' : DB) :
  store_ok db -> Post_save slugify db now self = Saved self' db' ->
  store_ok db'.
Proof.
  intros (Hp & Hl & Hc) E.
  destruct (Post_save_frame slugify db now self E) as (Ec & El & _ & _).
  unfold store_ok. rewrite Ec, El.
  split; [eapply Post_save_posts_ok; eassumption|split; assumption].
Qed.

Lemma step_store_ok (slugify : string -> string)
      (CommentForm_clean : list (string * string) -> option string)
      (db db' : DB) :
  step slugify CommentForm_clean db db' -> store_ok db -> store_ok db'.
Proof.
  intros Hst Hok.
  destruct Hst as [db request s|db now request s|db now self self' db' E
                   |db self].
  - now apply like_post_store_ok.
  - now apply post_detail_store_ok.
  - eapply Post_save_store_ok; eassumption.
  - now apply Post_delete_store_ok.
Qed.

Lemma store_ok_slugs_unique (db : DB) : store_ok db -> slugs_unique db.
Proof. intros ((_ & _ & H) & _). exact H. Qed.

(** X1.  Every store the application reaches from the empty one is sound:
    each post row has a primary key, no two post rows share a key or a
    slug, and like and comment keys are unique; every operation keeps a
    sound store sound. *)
Theorem reachable_store_ok :
  (forall slugify CommentForm_clean db db',
      step slugify CommentForm_clean db db' -> store_ok db -> store_ok db')
  /\ (forall slugify CommentForm_clean db,
         reachable slugify CommentForm_clean db ->
         store_ok db /\ slugs_unique db).
Proof.
  split; [exact step_store_ok|].
  intros slugify clean db Hr.
  assert (Hok : store_ok db).
  { induction Hr as [|db db' Hr IH Hst].
    - unfold store_ok, posts_ok; simpl. repeat split; try constructor.
      intros p [].
    - eapply step_store_ok; eassumption. }
  split; [assumption|now apply store_ok_slugs_unique].
Qed.

(* ================================================================== *)
(** * Outcomes of [Post.save] *)

(** [Model.save] raises exactly when another row carries the slug; what it
    stores is the instance, stamped. *)
Lemma Model_save_outcome (db : DB) (now : nat) (self : Post) :
  ((exists r, In r (posts db) /\ slug r = slug self /\ pk r <> pk self)
   /\ Model_save db now self = SaveRaised IntegrityError)
  \/ ((forall r, In r (posts db) -> slug r = slug self -> pk r = pk self)
      /\ exists self' db',
          Model_save db now self = Saved self' db'
          /\ In self' (posts db')
          /\ title self' = title self /\ slug self' = slug self
          /\ author self' = author self /\ content self' = content self
          /\ status self' = status self /\ updated_at self' = now).
Proof.
  destruct (existsb (fun r => String.eqb (slug r) (slug self)
                              && negb (option_nat_eqb (pk r) (pk self)))
                    (posts db)) eqn:E.
  - left. split.
    + apply existsb_exists in E as (r & Hr & H).
      apply andb_true_iff in H as [Hs Hp].
      apply String.eqb_eq in Hs. apply negb_true_iff in Hp.
      apply option_nat_eqb_neq in Hp. eauto.
    + unfold Model_save. now rewrite E.
  - right.
    assert (Hsaved : exists self' db',
               Model_save db now self = Saved self' db'
               /\ In self' (posts db')
               /\ title self' = title self /\ slug self' = slug self
               /\ author self' = author self /\ content self' = content self
               /\ status self' = status self /\ updated_at self' = now).
    { unfold Model_save. rewrite E.
      destruct (pk self) as [i|].
      - destruct (existsb (fun r => option_nat_eqb (pk r) (Some i)) (posts db))
          eqn:Ex.
        + do 2 eexists. split; [reflexivity|]. cbn. repeat split.
          apply existsb_exists in Ex as (r & Hr & Hi).
          apply in_map_iff. exists r. rewrite Hi. auto.
        + do 2 eexists. split; [reflexivity|]. cbn. repeat split.
          apply in_app_iff. right. now left.
      - do 2 eexists. split; [reflexivity|]. cbn. repeat split.
        apply in_app_iff. right. now left. }
    split; [|exact Hsaved].
    destruct Hsaved as (self' & db' & Es & _).
    exact (Model_save_slug_own db now self Es).
Qed.

(** X2.  [Post.save] always ends.  It raises [IntegrityError] exactly when
    the instance brings a non-empty slug that another row carries; in every
    other case, a slug computed by the probe included, the row is stored
    with the title, author, content and status of the instance. *)
Theorem Post_save_outcome (slugify : string -> string) (db : DB) (now : nat)
        (self : Post) :
  (slug self <> ""
   /\ (exists r, In r (posts db) /\ slug r = slug self /\ pk r <> pk self)
   /\ Post_save slugify db now self = SaveRaised IntegrityError)
  \/ ((slug self = ""
       \/ forall r, In r (posts db) -> slug r = slug self -> pk r = pk self)
      /\ exists self' db',
          Post_save slugify db now self = Saved self' db'
          /\ In self' (posts db')
          /\ title self' = title self /\ author self' = author self
          /\ content self' = content self /\ status self' = status self
          /\ updated_at self' = now).
Proof.
  unfold Post_save. destruct (slug self) as [|c s] eqn:Hs; cbn [truthy negb].
  - right. split; [now left|].
    destruct (probe_terminates db (slugify (title self))) as (cand & Hc).
    rewrite Hc.
    destruct (@probe_some db (slugify (title self)) _ 1 cand (le_n 1) Hc)
      as (k & _ & _ & Hfree & _).
    destruct (Model_save_outcome db now
                (mkPost (pk self) (title self) cand (author self)
                        (content self) (status self) (created_at self)
                        (updated_at self)))
      as [((r & Hr & Er & _) & _)|(_ & self' & db' & E & H)].
    + exfalso. cbn [slug] in Er.
      assert (slug_exists db cand = true); [|congruence].
      apply slug_exists_In. rewrite <- Er. now apply in_map.
    + exists self', db'. cbn in H. intuition.
  - rewrite <- Hs.
    destruct (Model_save_outcome db now self)
      as [(Hr & E)|(Hown & self' & db' & E & H)].
    + left. split; [rewrite Hs; discriminate|]. auto.
    + right. split; [now right|]. exists self', db'. intuition.
Qed.


(** X4.  Saving an instance that has a row (an edit) with a non-empty slug
    that no other row carries replaces that row in place: the table keeps
    its length, every other row stays, the slug and the creation time of
    the instance are stored as they are, and [updated_at] becomes the time
    of the save. *)
Theorem Post_save_edits_in_place (slugify : string -> string) (db : DB)
        (now : nat) (self old : Post) (i : nat) :
  In old (posts db) -> pk old = Some i -> pk self = Some i ->
  slug self <> "" ->
  (forall r, In r (posts db) -> slug r = slug self -> pk r = Some i) ->
  exists row db',
    Post_save slugify db now self = Saved row db'
    /\ pk row = Some i /\ slug row = slug self /\ title row = title self
    /\ created_at row = created_at self /\ updated_at row = now
    /\ List.length (posts db') = List.length (posts db)
    /\ (forall r, In r (posts db')
                  <-> r = row \/ (In r (posts db) /\ pk r <> Some i)).
Proof.
  intros Hold Hpk Hself Hslug Hown. unfold Post_save.
  assert (Ht : truthy (slug self) = true)
    by (destruct (slug self); [contradiction|reflexivity]).
  rewrite Ht. cbn [negb]. unfold Model_save.
  assert (Hfree : existsb (fun r => String.eqb (slug r) (slug self)
                                    && negb (option_nat_eqb (pk r) (pk self)))
                          (posts db) = false).
  { destruct (existsb _ (posts db)) eqn:E; [|reflexivity].
    apply existsb_exists in E as (r & Hr & H).
    apply andb_true_iff in H as [Hs Hp]. apply String.eqb_eq in Hs.
    apply negb_true_iff, option_nat_eqb_neq in Hp.
    rewrite Hself in Hp. now specialize (Hown r Hr Hs). }
  rewrite Hfree, Hself.
  assert (Hrow : existsb (fun r => option_nat_eqb (pk r) (Some i)) (posts db)
                 = true).
  { apply existsb_exists. exists old. split; [assumption|].
    now apply option_nat_eqb_eq. }
  rewrite Hrow. do 2 eexists. split; [reflexivity|].
  cbn [pk slug title created_at updated_at set_posts posts].
  repeat split; trivial.
  - apply length_map.
  - intros Hr. apply in_map_iff in Hr as (x & <- & Hx).
    destruct (option_nat_eqb (pk x) (Some i)) eqn:E; [now left|].
    right. split; [assumption|]. now apply option_nat_eqb_neq.
  - intros [->|[Hr Hne]]; apply in_map_iff.
    + exists old. split; [|assumption].
      now rewrite (proj2 (option_nat_eqb_eq _ _) Hpk).
    + exists r. split; [|assumption].
      now rewrite (proj2 (option_nat_eqb_neq _ _) Hne).
Qed.

(* ================================================================== *)
(** * Deleting a post *)

(** X5.  Deleting a post removes its row and, by cascade, every comment,
    like and tag association that refers to it; the rows of every other
    post, with their comments and likes, and the tags stay. *)
Theorem Post_delete_cascades (db : DB) (self : Post) (i : nat) :
  pk self = Some i ->
  let db' := Post_delete db self in
  (forall r, In r (posts db') <-> In r (posts db) /\ pk r <> Some i)
  /\ (forall c, In c (comments db') <-> In c (comments db)
                                        /\ comment_post c <> i)
  /\ (forall l, In l (likes db') <-> In l (likes db) /\ like_post_id l <> i)
  /\ (forall t, In t (tagged_items db') <-> In t (tagged_items db)
                                            /\ item_object t <> i)
  /\ tags db' = tags db.
Proof.
  intros Hpk. unfold Post_delete. rewrite Hpk.
  cbn [posts comments likes tagged_items tags].
  split; [|split; [|split; [|split; [|reflexivity]]]]; intros x;
    rewrite filter_In, negb_true_iff.
  - now rewrite option_nat_eqb_neq.
  - now rewrite Nat.eqb_neq.
  - now rewrite Nat.eqb_neq.
  - now rewrite Nat.eqb_neq.
Qed.

(* ================================================================== *)
(** * More on [like_post] *)

Lemma set_likes_same (db : DB) : set_likes db (likes db) = db.
Proof. destruct db; reflexivity. Qed.

Lemma filter_all {A : Type} (f : A -> bool) (l : list A) :
  (forall x, In x l -> f x = true) -> filter f l = l.
Proof.
  induction l as [|a l IH]; simpl; intros H; [reflexivity|].
  rewrite (H a) by auto. f_equal. apply IH. auto.
Qed.

Lemma filter_filter_same {A : Type} (f g : A -> bool) (l : list A) :
  (forall x, In x l -> f x = true -> g x = true) ->
  filter f (filter g l) = filter f l.
Proof.
  induction l as [|a l IH]; simpl; intros H; [reflexivity|].
  specialize (IH (fun x Hx => H x (or_intror Hx))).
  destruct (g a) eqn:Eg; simpl.
  - destruct (f a); now rewrite IH.
  - destruct (f a) eqn:Ef; [|assumption].
    rewrite (H a) in Eg by auto. discriminate.
Qed.

Lemma NoDup_map_In_inj {A B : Type} (f : A -> B) (l : list A) (x y : A) :
  NoDup (map f l) -> In x l -> In y l -> f x = f y -> x = y.
Proof.
  induction l as [|a l IH]; simpl; intros Hnd Hx Hy E; [contradiction|].
  inversion Hnd as [|? ? Ha Hl]; subst.
  destruct Hx as [->|Hx], Hy as [->|Hy]; trivial.
  - exfalso. apply Ha. rewrite E. now apply in_map.
  - exfalso. apply Ha. rewrite <- E. now apply in_map.
  - now apply IH.
Qed.

(** Deleting the rows of one key from a table with unique keys takes away
    exactly one of the rows that satisfy [h], when the deleted row does. *)
Lemma delete_one_length (h : Like -> bool) (l : list Like) (like : Like) :
  NoDup (map like_pk l) -> In like l -> h like = true ->
  List.length (filter h l)
  = S (List.length
         (filter h (filter (fun x => negb (like_pk x =? like_pk like)) l))).
Proof.
  induction l as [|a l IH]; simpl; intros Hnd Hin Hh; [contradiction|].
  inversion Hnd as [|? ? Ha Hl]; subst.
  destruct Hin as [->|Hin].
  - rewrite Nat.eqb_refl, Hh. simpl. f_equal. f_equal. symmetry.
    apply filter_filter_same. intros x Hx _. apply negb_true_iff, Nat.eqb_neq.
    intros E. apply Ha. rewrite <- E. now apply in_map.
  - assert (Hne : like_pk a <> like_pk like).
    { intros E. apply Ha. rewrite E. now apply in_map. }
    apply Nat.eqb_neq in Hne. rewrite Hne. simpl.
    destruct (h a); simpl; now rewrite (IH Hl Hin Hh).
Qed.

(** X6.  When the user does not like the post yet, liking it and then
    calling [like_post] again gives back the very store one started from:
    the second call finds the row just made and deletes that row only. *)
Theorem like_then_unlike_restores_store (db : DB) (request : HttpRequest)
        (P : Post) (i u : nat) :
  slugs_unique db -> In P (posts db) -> pk P = Some i ->
  user request = User u -> liked db P u = false ->
  like_post (fst (fst (like_post db request (slug P)))) request (slug P)
  = (db, [(Info, "Like removed.")], Redirect (get_absolute_url P)).
Proof.
  intros Hs Hin Hpk Hreq Hl.
  pose proof (existsb_false_filter _ _ Hl) as Hnone.
  assert (E1 : like_post db request (slug P)
               = (set_likes db
                    (likes db
                     ++ [mkLike (next_pk (map like_pk (likes db))) i u]),
                  [(Success, "Post liked.")], Redirect (get_absolute_url P))).
  { unfold like_post. rewrite (@get_by_slug db P Hs Hin), Hreq. unfold get.
    now rewrite Hnone, Hpk. }
  rewrite E1. cbn [fst]. unfold like_post at 1.
  cbn [posts set_likes likes].
  rewrite (@get_by_slug db P Hs Hin), Hreq. unfold get.
  rewrite filter_app, Hnone. cbn [filter app].
  unfold like_of at 1. cbn [like_post_id like_user]. rewrite Hpk.
  cbn [option_nat_eqb]. rewrite !Nat.eqb_refl. rewrite app_nil_l.
  cbn [andb like_pk].
  rewrite filter_app. cbn [filter like_pk]. rewrite Nat.eqb_refl.
  cbn [negb]. rewrite app_nil_r, filter_all.
  - destruct db; reflexivity.
  - intros l Hl'. apply negb_true_iff, Nat.eqb_neq.
    assert (like_pk l < next_pk (map like_pk (likes db)))
      by (apply next_pk_fresh; now apply in_map).
    lia.
Qed.

(** X7.  [like_post] writes to the like table only, and leaves the likes of
    every other (post, user) pair as they are. *)
Theorem like_post_touches_one_pair (db : DB) (request : HttpRequest)
        (P : Post) (i u : nat) :
  store_ok db -> In P (posts db) -> pk P = Some i ->
  user request = User u ->
  let db' := fst (fst (like_post db request (slug P))) in
  posts db' = posts db /\ comments db' = comments db
  /\ tags db' = tags db /\ tagged_items db' = tagged_items db
  /\ forall p' u', p' <> i \/ u' <> u ->
                   like_rows db' p' u' = like_rows db p' u'.
Proof.
  intros Hok Hin Hpk Hreq. cbv zeta.
  pose proof (store_ok_slugs_unique Hok) as Hs.
  destruct Hok as (_ & Hlpk & _).
  destruct (like_post_cases db request (slug P))
    as [E|[(post & v & j & Hg & Hv & Hj & Hnone & E)
          |(post & v & like & Hg & Hv & Hf & E)]];
    rewrite E; cbn [fst]; [auto| |].
  - rewrite (@get_by_slug db P Hs Hin) in Hg. inversion Hg; subst post.
    rewrite Hreq in Hv. inversion Hv; subst v.
    rewrite Hpk in Hj. inversion Hj; subst j.
    repeat split. intros p' u' Hother.
    unfold like_rows, set_likes; cbn [likes].
    rewrite filter_app. cbn [filter like_post_id like_user].
    destruct ((i =? p') && (u =? u')) eqn:Eb; [|apply app_nil_r].
    apply andb_true_iff in Eb as [Ei Eu].
    apply Nat.eqb_eq in Ei, Eu. subst. destruct Hother; contradiction.
  - rewrite (@get_by_slug db P Hs Hin) in Hg. inversion Hg; subst post.
    rewrite Hreq in Hv. inversion Hv; subst v.
    repeat split. intros p' u' Hother.
    unfold like_rows, set_likes; cbn [likes].
    apply filter_filter_same. intros l Hl Hm.
    apply negb_true_iff, Nat.eqb_neq. intros Epk.
    assert (Hlike : In like (filter (like_of P u) (likes db)))
      by (rewrite Hf; now left).
    apply filter_In in Hlike as [Hlike Hof].
    assert (l = like) by (eapply NoDup_map_In_inj; eassumption). subst l.
    apply andb_true_iff in Hm as [Hp' Hu'].
    apply Nat.eqb_eq in Hp', Hu'.
    unfold like_of in Hof. rewrite Hpk in Hof. cbn in Hof.
    apply andb_true_iff in Hof as [Hi Hu].
    apply Nat.eqb_eq in Hi, Hu. destruct Hother; congruence.
Qed.

(** X8.  A like adds exactly one to the number of likes of the post, the
    removal of a like takes exactly one away. *)
Theorem like_post_counts_by_one (db : DB) (request : HttpRequest)
        (P : Post) (i u : nat) :
  store_ok db -> likes_unique db -> In P (posts db) -> pk P = Some i ->
  user request = User u ->
  let db' := fst (fst (like_post db request (slug P))) in
  (liked db P u = false -> like_count db' P = S (like_count db P))
  /\ (liked db P u = true -> like_count db P = S (like_count db' P)).
Proof.
  intros Hok Hu Hin Hpk Hreq. cbv zeta.
  pose proof (store_ok_slugs_unique Hok) as Hs.
  destruct Hok as (_ & Hlpk & _).
  destruct (@like_post_toggles db request P i u Hs Hin Hpk Hu Hreq)
    as [[Hl E]|(like & Hl & Hf & E)]; rewrite E; cbn [fst];
    split; intros Hl'; try congruence.
  - unfold like_count, set_likes; cbn [likes].
    rewrite filter_app, length_app. cbn [filter like_post_id].
    rewrite Hpk. cbn [option_nat_eqb]. rewrite Nat.eqb_refl. simpl. lia.
  - unfold like_count, set_likes; cbn [likes].
    assert (Hlike : In like (filter (like_of P u) (likes db)))
      by (rewrite Hf; now left).
    apply filter_In in Hlike as [Hlike Hof].
    apply delete_one_length; trivial.
    unfold like_of in Hof. now apply andb_true_iff in Hof as [Hof _].
Qed.

(* ================================================================== *)
(** * Ordering keeps the rows *)

Lemma insert_desc_perm {A : Type} (key : A -> nat) (x : A) (l : list A) :
  Permutation (insert_desc key x l) (x :: l).
Proof.
  induction l as [|a l IH]; simpl; [reflexivity|].
  destruct (key a <=? key x); [reflexivity|].
  rewrite IH. apply perm_swap.
Qed.

Lemma order_by_desc_perm {A : Type} (key : A -> nat) (l : list A) :
  Permutation (order_by_desc key l) l.
Proof.
  induction l as [|a l IH]; simpl; [reflexivity|].
  rewrite insert_desc_perm. now constructor.
Qed.

Lemma order_by_desc_length {A : Type} (key : A -> nat) (l : list A) :
  List.length (order_by_desc key l) = List.length l.
Proof. apply Permutation_length, order_by_desc_perm. Qed.

Lemma order_by_desc_NoDup {A : Type} (key : A -> nat) (l : list A) :
  NoDup l -> NoDup (order_by_desc key l).
Proof.
  intros H. eapply Permutation_NoDup; [|exact H].
  symmetry. apply order_by_desc_perm.
Qed.

(* ================================================================== *)
(** * More on [post_detail] *)

Lemma visible_not_turned_away (P : Post) (v : RequestUser) :
  status P = "published" \/ v = User (author P) ->
  negb (is_published P) && negb (author_is P v) = false.
Proof.
  intros [H|H].
  - apply is_published_status in H. now rewrite H.
  - apply author_is_true in H. rewrite H. apply andb_false_r.
Qed.

(** X9.  A valid comment of a signed-in user on a post that user may see is
    stored as one new row (that post, that user, the cleaned body, the time
    of the request) and answered by the redirect to the post with "Comment
    added."; the next visit of the post by that user lists the comment, one
    more than before. *)
Theorem comment_then_view
        (CommentForm_clean : list (string * string) -> option string)
        (db : DB) (now now' : nat) (request : HttpRequest) (P : Post)
        (i u : nat) (b : string) :
  slugs_unique db -> In P (posts db) -> pk P = Some i ->
  user request = User u -> method request = "POST" ->
  CommentForm_clean (POST request) = Some b ->
  status P = "published" \/ u = author P ->
  let c := mkComment (next_pk (map comment_pk (comments db))) i u b now in
  let db' := set_comments db (comments db ++ [c]) in
  post_detail CommentForm_clean db now request (slug P)
  = (db', [(Success, "Comment added.")], Redirect (get_absolute_url P))
  /\ exists ctx,
      post_detail CommentForm_clean db' now' (get_as u) (slug P)
      = (db', [], Render "blog/post_detail.html" ctx)
      /\ ctx_post ctx = P
      /\ In c (ctx_comments ctx)
      /\ List.length (ctx_comments ctx)
         = S (List.length (post_comments db P)).
Proof.
  intros Hs Hin Hpk Hu Hm Hc Hvis0. cbv zeta.
  assert (Hvis : status P = "published" \/ User u = User (author P))
    by (destruct Hvis0; [left|right]; congruence).
  split.
  - unfold post_detail. rewrite (@get_by_slug db P Hs Hin), Hu.
    rewrite (visible_not_turned_away P Hvis), Hm, Hc, Hpk. reflexivity.
  - unfold post_detail at 1. cbn [posts set_comments].
    rewrite (@get_by_slug db P Hs Hin). cbn [user get_as method].
    rewrite (visible_not_turned_away P Hvis). cbn [String.eqb Ascii.eqb
      Bool.eqb andb].
    eexists. split; [reflexivity|]. cbn [ctx_post ctx_comments].
    split; [reflexivity|]. unfold post_comments, set_comments;
      cbn [comments]. split.
    + apply order_by_desc_In, filter_In. split.
      * apply in_app_iff. right. now left.
      * cbn [comment_post]. now apply option_nat_eqb_eq.
    + rewrite !order_by_desc_length, filter_app, length_app.
      cbn [filter comment_post]. rewrite Hpk. cbn [option_nat_eqb].
      rewrite Nat.eqb_refl. simpl. lia.
Qed.

(** X10.  [post_detail] never touches posts, likes or tags, and never
    edits or deletes a comment: the store comes back as it was, or with
    one comment appended, which happens only for a POST of a signed-in user
    whose form is valid; the new comment is that user's and is stamped with
    the time of the request. *)
Theorem post_detail_only_appends
        (CommentForm_clean : list (string * string) -> option string)
        (db : DB) (now : nat) (request : HttpRequest) (slug_kw : string) :
  let db' :=
    fst (fst (post_detail CommentForm_clean db now request slug_kw)) in
  posts db' = posts db /\ likes db' = likes db
  /\ tags db' = tags db /\ tagged_items db' = tagged_items db
  /\ (db' = db
      \/ exists c,
          comments db' = comments db ++ [c]
          /\ user request = User (comment_user c)
          /\ method request = "POST"
          /\ CommentForm_clean (POST request) = Some (body c)
          /\ comment_created_at c = now
          /\ exists post, In post (posts db) /\ slug post = slug_kw
                          /\ pk post = Some (comment_post c)).
Proof.
  cbv zeta.
  destruct (post_detail_cases CommentForm_clean db now request slug_kw)
    as [E|(post & u & b & i & Hg & Hu & Hm & Hc & Hpk & _ & E)];
    rewrite E; cbn [fst]; [auto 10|].
  repeat split. right. eexists. split; [reflexivity|].
  cbn [comment_user body comment_created_at comment_post].
  repeat split; trivial. exists post.
  unfold get in Hg.
  assert (Hpost : In post (filter (fun p => String.eqb (slug p) slug_kw)
                                  (posts db))).
  { destruct (filter _ (posts db)) as [|x [|y r]]; try discriminate.
    inversion Hg. now left. }
  apply filter_In in Hpost as [Hpost Hslug].
  apply String.eqb_eq in Hslug. auto.
Qed.

(** X11.  The page [post_detail] renders for a viewer who may see the post
    shows that post with an empty form, exactly the comments of that post,
    newest first, the number of likes of the post, and whether the viewer
    (if signed in) is among those who like it. *)
Theorem post_detail_page
        (CommentForm_clean : list (string * string) -> option string)
        (db : DB) (now : nat) (request : HttpRequest) (P : Post) (i : nat) :
  slugs_unique db -> In P (posts db) -> pk P = Some i ->
  method request <> "POST" ->
  status P = "published" \/ user request = User (author P) ->
  exists ctx,
    post_detail CommentForm_clean db now request (slug P)
    = (db, [], Render "blog/post_detail.html" ctx)
    /\ ctx_post ctx = P /\ ctx_form ctx = UnboundForm
    /\ (forall c, In c (ctx_comments ctx)
                  <-> In c (comments db) /\ comment_post c = i)
    /\ newest_first comment_created_at (ctx_comments ctx)
    /\ ctx_like_count ctx
       = List.length (filter (fun l => like_post_id l =? i) (likes db))
    /\ ctx_liked ctx
       = match user request with
         | User u => negb (Nat.eqb (List.length (like_rows db i u)) 0)
         | AnonymousUser => false
         end.
Proof.
  intros Hs Hin Hpk Hm Hvis. unfold post_detail.
  rewrite (@get_by_slug db P Hs Hin), (visible_not_turned_away P Hvis).
  apply String.eqb_neq in Hm. rewrite Hm.
  eexists. split; [reflexivity|].
  cbn [ctx_post ctx_form ctx_comments ctx_like_count ctx_liked].
  repeat split.
  - unfold post_comments in H.
    now apply order_by_desc_In, filter_In in H as [H _].
  - unfold post_comments in H.
    apply order_by_desc_In, filter_In in H as [_ H].
    rewrite Hpk in H. apply option_nat_eqb_eq in H. now inversion H.
  - intros [H E]. unfold post_comments.
    apply order_by_desc_In, filter_In. split; [assumption|].
    rewrite Hpk, E. now apply option_nat_eqb_eq.
  - apply order_by_desc_sorted.
  - unfold like_count. f_equal. apply filter_ext. intros l.
    rewrite Hpk. simpl. apply Nat.eqb_sym.
  - destruct (user request) as [|u]; [reflexivity|].
    rewrite <- (@like_of_rows db P i u Hpk).
    destruct (existsb (like_of P u) (likes db)) eqn:E.
    + apply existsb_exists in E as (l & Hl & Hf).
      assert (Hx : In l (filter (like_of P u) (likes db)))
        by (apply filter_In; auto).
      destruct (filter (like_of P u) (likes db)); [contradiction|reflexivity].
    + now rewrite (existsb_false_filter _ _ E).
Qed.

(* ================================================================== *)
(** * More on the listings *)

(** X12.  [TagListView] answers "not found" for a tag slug that no tag
    carries, whatever posts there are. *)
Theorem TagListView_unknown_tag (db : DB) (tag_slug_kw : string) :
  (forall t, In t (tags db) -> tag_slug t <> tag_slug_kw) ->
  TagListView_get_queryset db tag_slug_kw = QueryNotFound.
Proof.
  intros H. unfold TagListView_get_queryset, get.
  rewrite filter_none; [reflexivity|].
  intros t Ht. now apply String.eqb_neq, H.
Qed.

(** X13.  For an existing tag, [TagListView] returns exactly the published
    posts that carry the tag, and each of them once, however many
    associations tie the post to the tag. *)
Theorem TagListView_rows (db : DB) (tag : Tag) :
  tag_slugs_unique db -> In tag (tags db) ->
  exists rows,
    TagListView_get_queryset db (tag_slug tag) = Rows rows
    /\ NoDup rows
    /\ forall p, In p rows
                 <-> In p (posts db) /\ status p = "published"
                     /\ tagged db (tag_pk tag) p.
Proof.
  intros Hu Hin. unfold TagListView_get_queryset, get.
  rewrite (filter_unique_key tag_slug (tags db) tag Hu Hin).
  eexists. split; [reflexivity|]. split.
  - apply order_by_desc_NoDup, NoDup_nodup.
  - intros p. rewrite order_by_desc_In, nodup_In, in_flat_map. split.
    + intros (q & Hq & Hp). apply in_map_iff in Hp as (ti & <- & Hti).
      apply filter_In in Hq as [Hq Hpub]. apply filter_In in Hti as [Hti Hm].
      apply andb_true_iff in Hm as [Ht Ho].
      apply Nat.eqb_eq in Ht. apply option_nat_eqb_eq in Ho.
      split; [assumption|]. split; [now apply is_published_status|].
      exists ti. auto.
    + intros (Hp & Hst & ti & Hti & Ht & Ho). exists p. split.
      * apply filter_In. split; [assumption|]. now apply is_published_status.
      * apply in_map_iff. exists ti. split; [reflexivity|].
        apply filter_In. split; [assumption|].
        apply andb_true_iff. split; [now apply Nat.eqb_eq|].
        now apply option_nat_eqb_eq.
Qed.

(** X14.  Without a [q] parameter, or with an empty one, the post list is
    the published posts, each of them once. *)
Theorem PostListView_without_query (db : DB) (request : HttpRequest) :
  QueryDict_get "q" (GET request) = None
  \/ QueryDict_get "q" (GET request) = Some "" ->
  Permutation (PostListView_get_queryset db request)
              (filter is_published (posts db)).
Proof.
  intros [H|H]; unfold PostListView_get_queryset, Post_objects; rewrite H;
    cbn [truthy]; apply order_by_desc_perm.
Qed.

Lemma sorted_app_le {A : Type} (key : A -> nat) (a b : list A) (x y : A) :
  newest_first key (a ++ b) -> In x a -> In y b -> key y <= key x.
Proof.
  unfold newest_first. induction a as [|h a IH]; simpl; intros Hs Hx Hy;
    [contradiction|].
  apply StronglySorted_inv in Hs as [Hs Hall].
  destruct Hx as [->|Hx]; [|now apply IH].
  rewrite Forall_forall in Hall. apply Hall, in_app_iff. now right.
Qed.

(** X15.  [recent_posts] returns published posts only, as many as the limit
    allows (all of them when there are fewer), and they are the newest: no
    published post left out is newer than a post returned. *)
Theorem recent_posts_are_the_newest (db : DB) (limit : nat) :
  List.length (recent_posts db limit)
  = Nat.min limit (List.length (filter is_published (posts db)))
  /\ (forall p, In p (recent_posts db limit) ->
                In p (posts db) /\ status p = "published")
  /\ (forall p q, In p (recent_posts db limit) ->
                  In q (posts db) -> status q = "published" ->
                  ~ In q (recent_posts db limit) ->
                  created_at q <= created_at p).
Proof.
  unfold recent_posts.
  set (l := order_by_desc created_at (filter is_published (posts db))).
  split; [|split].
  - rewrite length_firstn. unfold l. now rewrite order_by_desc_length.
  - intros p Hp0.
    assert (Hp : In p l)
      by (rewrite <- (firstn_skipn limit l); apply in_app_iff; now left).
    unfold l in Hp.
    apply order_by_desc_In, filter_In in Hp as [Hp Hpub].
    split; [assumption|now apply is_published_status].
  - intros p q Hp Hq Hst Hout.
    assert (Hl : In q l).
    { unfold l. apply order_by_desc_In, filter_In.
      split; [assumption|now apply is_published_status]. }
    rewrite <- (firstn_skipn limit l) in Hl.
    apply in_app_iff in Hl as [Hl|Hl]; [contradiction|].
    apply (@sorted_app_le Post created_at (firstn limit l) (skipn limit l));
      trivial.
    rewrite firstn_skipn. apply order_by_desc_sorted.
Qed.

Lemma like_count_after_create (db : DB) (P : Post) (n i u : nat) :
  pk P = Some i ->
  like_count (set_likes db (likes db ++ [mkLike n i u])) P
  = S (like_count db P).
Proof.
  intros Hpk. unfold like_count, set_likes; cbn [likes].
  rewrite filter_app, length_app. cbn [filter like_post_id].
  rewrite Hpk. cbn [option_nat_eqb]. rewrite Nat.eqb_refl. simpl. lia.
Qed.

(** X16.  Once a user has liked a post, the dashboard of the post's author
    shows the post with one like more than before. *)
Theorem like_shows_on_dashboard (db : DB) (request : HttpRequest) (P : Post)
        (i u : nat) :
  slugs_unique db -> In P (posts db) -> pk P = Some i ->
  user request = User u -> liked db P u = false ->
  In (P, like_count db P) (DashboardView_get_context_data db (author P))
  /\ In (P, S (like_count db P))
        (DashboardView_get_context_data
           (fst (fst (like_post db request (slug P)))) (author P)).
Proof.
  intros Hs Hin Hpk Hreq Hl.
  pose proof (existsb_false_filter _ _ Hl) as Hnone.
  assert (E : like_post db request (slug P)
              = (set_likes db
                   (likes db
                    ++ [mkLike (next_pk (map like_pk (likes db))) i u]),
                 [(Success, "Post liked.")], Redirect (get_absolute_url P))).
  { unfold like_post. rewrite (@get_by_slug db P Hs Hin), Hreq. unfold get.
    now rewrite Hnone, Hpk. }
  rewrite E. cbn [fst]. unfold DashboardView_get_context_data.
  split; apply order_by_desc_In, in_map_iff; exists P;
    (split; [|apply filter_In; split; [assumption|apply Nat.eqb_refl]]).
  - reflexivity.
  - now rewrite like_count_after_create.
Qed.

(** X17.  A post that has just been created is found under its slug: its
    author gets the detail page of it, draft or not; the author's dashboard
    lists it; the public list holds it exactly when it is published. *)
Theorem created_post_is_reachable
        (slugify : string -> string)
        (CommentForm_clean : list (string * string) -> option string)
        (db : DB) (now now' : nat) (t : string) (a : nat) (c st : string) :
  posts_ok db ->
  exists p db',
    Post_save slugify db now (new_post t a c st) = Saved p db'
    /\ (exists ctx,
           post_detail CommentForm_clean db' now' (get_as a) (slug p)
           = (db', [], Render "blog/post_detail.html" ctx)
           /\ ctx_post ctx = p)
    /\ (exists n, In (p, n) (DashboardView_get_context_data db' a))
    /\ (In p (PostListView_get_queryset db' (get_as a))
        <-> st = "published").
Proof.
  intros Hok.
  destruct (Post_save_new slugify db now t a c st) as (k & _ & E & _).
  cbv zeta in E.
  set (p := mkPost (Some (next_pk (post_pks db))) t
                   (candidate (slugify t) k) a c st now now) in *.
  set (db' := set_posts db (posts db ++ [p])) in *.
  assert (Hs : slugs_unique db').
  { destruct (@Post_save_posts_ok slugify db now _ p db' Hok E)
      as (_ & _ & H).
    exact H. }
  assert (Hin : In p (posts db'))
    by (unfold db'; cbn [posts set_posts]; apply in_app_iff; right; now left).
  exists p, db'. split; [exact E|]. split; [|split].
  - unfold post_detail. rewrite (@get_by_slug db' p Hs Hin).
    rewrite visible_not_turned_away by (right; reflexivity).
    cbn [get_as method String.eqb Ascii.eqb Bool.eqb andb].
    eexists. split; reflexivity.
  - exists (like_count db' p). unfold DashboardView_get_context_data.
    apply order_by_desc_In, in_map_iff. exists p. split; [reflexivity|].
    apply filter_In. split; [assumption|]. apply Nat.eqb_refl.
  - rewrite PostListView_In. cbn [get_as GET QueryDict_get fold_left].
    rewrite is_published_status. cbn [status p]. intuition.
Qed.

(* ================================================================== *)
(** * How far the slug probe goes *)

Lemma probe_bound (db : DB) (base_slug : string) (fuel c : nat) (s : string) :
  1 <= c ->
  probe db base_slug c (candidate base_slug c) fuel = Some s ->
  exists k, c <= k < c + fuel /\ s = candidate base_slug k.
Proof.
  revert c. induction fuel as [|fuel IH]; cbn [probe]; intros c Hc E;
    [discriminate|].
  destruct (slug_exists db (candidate base_slug c)).
  - rewrite candidate_succ in E by assumption.
    apply IH in E as (k & Hk & Es); [|lia]. exists k. split; [lia|assumption].
  - inversion E; subst. exists c. split; [lia|reflexivity].
Qed.

(** X18.  The suffix the probe settles on is never larger than the number
    of posts plus one: with [n] rows in the table a new post gets the
    slugified title itself or that title with a suffix between 2 and
    [n + 1]. *)
Theorem slug_suffix_bounded (slugify : string -> string) (db : DB)
        (now : nat) (t : string) (a : nat) (c st : string) :
  exists p db' k,
    Post_save slugify db now (new_post t a c st) = Saved p db'
    /\ 1 <= k <= S (List.length (posts db))
    /\ slug p = candidate (slugify t) k.
Proof.
  destruct (probe_terminates db (slugify t)) as (s & Hs).
  destruct (@probe_bound db (slugify t) _ 1 s (le_n 1) Hs) as (k & Hk & ->).
  destruct (@probe_some db (slugify t) _ 1 _ (le_n 1) Hs)
    as (_ & _ & _ & Hfree & _).
  do 2 eexists. exists k. split; [|split; [lia|]].
  - unfold Post_save, new_post; cbn [slug truthy negb title pk author content
                                     status created_at updated_at].
    rewrite Hs. now rewrite Model_save_insert.
  - reflexivity.
Qed.

(** X19.  A post that carries a non-empty slug keeps it on every save that
    goes through, whatever its title has become; the title and the other
    fields are stored as the instance has them and the stored row is in the
    table. *)
Theorem resave_keeps_nonempty_slug (slugify : string -> string) (db : DB)
        (now : nat) (self self' : Post) (db' : DB) :
  slug self <> "" ->
  Post_save slugify db now self = Saved self' db' ->
  slug self' = slug self /\ title self' = title self
  /\ In self' (posts db').
Proof.
  intros Hne. unfold Post_save.
  assert (Ht : truthy (slug self) = true)
    by (destruct (slug self); [contradiction|reflexivity]).
  rewrite Ht. cbn [negb]. intros E.
  destruct (Model_save_outcome db now self)
    as [(_ & E')|(_ & p & d & E' & Hin & Htitle & Hslug & _)];
    rewrite E' in E; [discriminate|].
  inversion E; subst. auto.
Qed.

(* ================================================================== *)
(** * Worked examples on the sample store *)

Lemma sample_store_ok : store_ok sample_db.
Proof.
  unfold store_ok, posts_ok. simpl.
  repeat split; repeat constructor; simpl; try intuition discriminate.
  intros p [<-|[<-|[]]]; discriminate.
Defined.

Lemma sample_published_in : In sample_published (posts sample_db).
Proof. simpl; auto. Defined.

(** The store after the like of user 2 is sound. *)
Lemma reachable_store_ok_witness :
  store_ok sample_db
  /\ slugs_unique (fst (fst (like_post sample_db reader_like "hello-world"))).
Proof.
  split; [exact sample_store_ok|].
  apply store_ok_slugs_unique.
  apply (proj1 reachable_store_ok django_slugify sample_form sample_db).
  - apply step_like_post.
  - exact sample_store_ok.
Defined.

(** The published post saved under a new title keeps "hello-world". *)
Lemma resave_keeps_nonempty_slug_witness :
  exists self' db',
    Post_save django_slugify sample_db 50 sample_retitled = Saved self' db'
    /\ title self' = "Hello Again" /\ slug self' = "hello-world".
Proof.
  do 2 eexists. split; [reflexivity|]. split; [reflexivity|].
  eapply (@resave_keeps_nonempty_slug django_slugify sample_db 50
            sample_retitled).
  - discriminate.
  - reflexivity.
Defined.

Lemma Post_save_edits_in_place_witness :
  exists row db',
    Post_save django_slugify sample_db 50 sample_retitled = Saved row db'
    /\ updated_at row = 50
    /\ List.length (posts db') = 2.
Proof.
  destruct (@Post_save_edits_in_place django_slugify sample_db 50
              sample_retitled sample_published 1 sample_published_in
              eq_refl eq_refl)
    as (row & db' & E & _ & _ & _ & _ & Hup & Hlen & _).
  - discriminate.
  - intros r [<-|[<-|[]]]; simpl; intros H; [reflexivity|discriminate].
  - exists row, db'. auto.
Defined.

(** Deleting the published post of the sample store keeps the draft. *)
Lemma Post_delete_cascades_witness :
  pk sample_published = Some 1
  /\ In sample_draft (posts (Post_delete sample_db sample_published))
  /\ likes (Post_delete sample_db sample_published) = [].
Proof.
  split; [reflexivity|]. split; [|reflexivity].
  apply (proj1 (@Post_delete_cascades sample_db sample_published 1 eq_refl)).
  split; [simpl; auto|simpl; discriminate].
Defined.

Lemma like_then_unlike_restores_store_witness :
  like_post (fst (fst (like_post sample_db newcomer_like "hello-world")))
            newcomer_like "hello-world"
  = (sample_db, [(Info, "Like removed.")],
     Redirect (mkUrl "post_detail" ["hello-world"])).
Proof.
  exact (@like_then_unlike_restores_store sample_db newcomer_like
           sample_published 1 3 sample_slugs_unique sample_published_in
           eq_refl eq_refl eq_refl).
Defined.

(** The like of user 3 leaves the like of user 2 alone. *)
Lemma like_post_touches_one_pair_witness :
  store_ok sample_db
  /\ like_rows (fst (fst (like_post sample_db newcomer_like "hello-world")))
               1 2
     = like_rows sample_db 1 2.
Proof.
  split; [exact sample_store_ok|].
  destruct (@like_post_touches_one_pair sample_db newcomer_like
              sample_published 1 3 sample_store_ok sample_published_in
              eq_refl eq_refl) as (_ & _ & _ & _ & H).
  apply H. right. discriminate.
Defined.

Lemma like_post_counts_by_one_witness :
  like_count sample_db sample_published = 1
  /\ like_count (fst (fst (like_post sample_db newcomer_like "hello-world")))
                sample_published = 2.
Proof.
  split; [reflexivity|].
  exact (proj1 (@like_post_counts_by_one sample_db newcomer_like
                  sample_published 1 3 sample_store_ok sample_likes_unique
                  sample_published_in eq_refl eq_refl) eq_refl).
Defined.

Lemma comment_then_view_witness :
  post_detail sample_form sample_db 40 (comment_as 2 "Nice") "hello-world"
  = (set_comments sample_db [mkComment 1 1 2 "Nice" 40],
     [(Success, "Comment added.")],
     Redirect (mkUrl "post_detail" ["hello-world"])).
Proof.
  exact (proj1 (@comment_then_view sample_form sample_db 40 41
                  (comment_as 2 "Nice") sample_published 1 2 "Nice"
                  sample_slugs_unique sample_published_in eq_refl eq_refl
                  eq_refl eq_refl (or_introl eq_refl))).
Defined.

(** An anonymous comment leaves the sample store as it is. *)
Lemma post_detail_only_appends_witness :
  fst (fst (post_detail sample_form sample_db 40 anonymous_post
                        "hello-world")) = sample_db.
Proof.
  destruct (post_detail_only_appends sample_form sample_db 40 anonymous_post
              "hello-world") as (_ & _ & _ & _ & [H|(c & _ & H & _)]).
  - exact H.
  - discriminate H.
Defined.

Lemma post_detail_page_witness :
  exists ctx,
    post_detail sample_form sample_db 40 reader_get "hello-world"
    = (sample_db, [], Render "blog/post_detail.html" ctx)
    /\ ctx_liked ctx = true /\ ctx_like_count ctx = 1.
Proof.
  destruct (@post_detail_page sample_form sample_db 40 reader_get
              sample_published 1 sample_slugs_unique sample_published_in
              eq_refl)
    as (ctx & E & _ & _ & _ & _ & Hcount & Hliked).
  - discriminate.
  - now left.
  - exists ctx. auto.
Defined.

Lemma TagListView_unknown_tag_witness :
  TagListView_get_queryset sample_db "sports" = QueryNotFound.
Proof.
  apply TagListView_unknown_tag.
  intros t [<-|[]]. discriminate.
Defined.

Lemma TagListView_rows_witness :
  exists rows,
    TagListView_get_queryset sample_db "news" = Rows rows /\ NoDup rows.
Proof.
  destruct (@TagListView_rows sample_db (mkTag 1 "News" "news"))
    as (rows & E & Hnd & _).
  - unfold tag_slugs_unique. simpl. repeat constructor. simpl. tauto.
  - simpl; auto.
  - exists rows. auto.
Defined.

Lemma PostListView_without_query_witness :
  Permutation (PostListView_get_queryset sample_db reader_get)
              [sample_published].
Proof.
  apply (@PostListView_without_query sample_db reader_get).
  left. reflexivity.
Defined.

Lemma like_shows_on_dashboard_witness :
  In (sample_published, 2)
     (DashboardView_get_context_data
        (fst (fst (like_post sample_db newcomer_like "hello-world"))) 1).
Proof.
  exact (proj2 (@like_shows_on_dashboard sample_db newcomer_like
                  sample_published 1 3 sample_slugs_unique
                  sample_published_in eq_refl eq_refl eq_refl)).
Defined.

Lemma created_post_is_reachable_witness :
  exists p db',
    Post_save django_slugify sample_db 60 (new_post "Fresh" 1 "text" "draft")
    = Saved p db'
    /\ exists ctx,
        post_detail sample_form db' 61 (get_as 1) (slug p)
        = (db', [], Render "blog/post_detail.html" ctx)
        /\ ctx_post ctx = p.
Proof.
  destruct (@created_post_is_reachable django_slugify sample_form sample_db
              60 61 "Fresh" 1 "text" "draft" (proj1 sample_store_ok))
    as (p & db' & E & Hd & _).
  exists p, db'. auto.
Defined.
